(** * Projeto.py: a record file indexed by a binary search tree

    Shallow embedding of [Registro], [No], [ArvoreBinariaBusca],
    [ArquivoRegistros] and [SistemaGerenciadorBD].

    Python objects are mutable and shared by reference: the very same
    [Registro] object is appended to the record file and stored in the
    index node.  The embedding therefore keeps the records in an explicit
    object memory and lets the file and the tree hold references into it.
    Tree nodes are never aliased outside the tree, so the tree itself is a
    plain inductive value that the operations rebuild. *)

From Stdlib Require Import ZArith String Ascii List Bool Lia Sorted.
From stdpp Require Import base option list.

Local Open Scope string_scope.
Local Open Scope Z_scope.
Local Open Scope list_scope.

(** ** Records and the object memory *)

(** The value produced by [datetime.strptime(..., "%d/%m/%Y")]; parsing
    is outside the modelled core, a parsed date is supplied. *)
Record datetime : Type := { dia : nat; mes : nat; ano : nat }.

Record Registro : Type := {
  cpf : string;
  nome : string;
  data_nascimento : option datetime;
  deletado : bool
}.

(** [Registro.zerar]: overwrites every field of the object. *)
Definition zerar (self : Registro) : Registro :=
  {| cpf := ""; nome := ""; data_nascimento := None; deletado := true |}.

(** A reference to a [Registro] object. *)
Abbreviation ref := nat (only parsing).

(** The object memory: the record objects allocated so far; a reference
    is the allocation index.  Objects are never freed. *)
Abbreviation memoria := (list Registro) (only parsing).

(** [Registro(cpf, nome, data, deletado)]: allocates a new object. *)
Definition novo_Registro (m : memoria) (c n : string) (d : datetime)
    (del : bool) : memoria * ref :=
  (m ++ [ {| cpf := c; nome := n; data_nascimento := Some d; deletado := del |} ],
   length m).

(** Field reads through a reference.  References held by the program
    always point at allocated objects; the fall-back value is never read
    in a state built by the operations below. *)
Definition cpf_de (m : memoria) (r : ref) : string :=
  match m !! r with Some x => cpf x | None => "" end.

Definition deletado_de (m : memoria) (r : ref) : bool :=
  match m !! r with Some x => deletado x | None => false end.

(** [registro.zerar()] on the shared object. *)
Definition zerar_em (m : memoria) (r : ref) : memoria := alter zerar r m.

(** [Registro.__lt__]: comparison of the keys.  Python compares [str]
    values lexicographically by code point, which is the order of
    [String.compare] on the encoded text. *)
Definition Registro_lt (m : memoria) (a b : ref) : bool :=
  String.ltb (cpf_de m a) (cpf_de m b).

(** [a > b] on records: [Registro] defines no [__gt__], so Python uses
    the reflected [b.__lt__(a)]. *)
Definition Registro_gt (m : memoria) (a b : ref) : bool :=
  Registro_lt m b a.

(** What the program prints. *)
Inductive Evento : Type :=
| ChaveJaExiste (c : string)
| RegistroRemovido (c : string)
| RegistroNaoEncontrado (c : string).

(** ** Tree nodes *)

(** A link to a node: [None] or a [No] object. *)
Inductive No : Type :=
| Nulo
| Nodo (registro : ref) (posicao : Z) (esquerda direita : No).

Fixpoint tamanho (no : No) : nat :=
  match no with
  | Nulo => O
  | Nodo _ _ e d => S (tamanho e + tamanho d)
  end.

(** The (record, position) pairs held by the nodes, left to right. *)
Fixpoint entradas (no : No) : list (ref * Z) :=
  match no with
  | Nulo => []
  | Nodo r p e d => entradas e ++ (r, p) :: entradas d
  end.

(** ** The index: [ArvoreBinariaBusca] *)

Module ArvoreBinariaBusca.

Record t : Type := { raiz : No }.

Definition nova : t := {| raiz := Nulo |}.

(** [_inserir] is only called on an existing node. *)
Fixpoint _inserir (m : memoria) (no_atual : No) (registro : ref)
    (posicao : Z) : No * list Evento :=
  match no_atual with
  | Nulo => (Nulo, [])
  | Nodo r p e d =>
      if Registro_lt m registro r then
        match e with
        | Nulo => (Nodo r p (Nodo registro posicao Nulo Nulo) d, [])
        | Nodo _ _ _ _ =>
            let '(e', out) := _inserir m e registro posicao in
            (Nodo r p e' d, out)
        end
      else if Registro_gt m registro r then
        match d with
        | Nulo => (Nodo r p e (Nodo registro posicao Nulo Nulo), [])
        | Nodo _ _ _ _ =>
            let '(d', out) := _inserir m d registro posicao in
            (Nodo r p e d', out)
        end
      else (no_atual, [ChaveJaExiste (cpf_de m registro)])
  end.

Definition inserir (m : memoria) (self : t) (registro : ref)
    (posicao : Z) : t * list Evento :=
  match raiz self with
  | Nulo => ({| raiz := Nodo registro posicao Nulo Nulo |}, [])
  | Nodo _ _ _ _ =>
      let '(raiz', out) := _inserir m (raiz self) registro posicao in
      ({| raiz := raiz' |}, out)
  end.

(** Returns the node found, or [Nulo] for Python's [None]. *)
Fixpoint _buscar (m : memoria) (no_atual : No) (chave : string) : No :=
  match no_atual with
  | Nulo => Nulo
  | Nodo r p e d =>
      if String.eqb chave (cpf_de m r) then no_atual
      else if String.ltb chave (cpf_de m r) then _buscar m e chave
      else _buscar m d chave
  end.

Definition buscar (m : memoria) (self : t) (chave : string) : No :=
  _buscar m (raiz self) chave.

(** The [while] loop walks down the left links. *)
Fixpoint _minimo (no : No) : No :=
  match no with
  | Nulo => Nulo
  | Nodo _ _ e _ =>
      match e with
      | Nulo => no
      | Nodo _ _ _ _ => _minimo e
      end
  end.

Fixpoint _remover (m : memoria) (no : No) (chave : string) : No :=
  match no with
  | Nulo => Nulo
  | Nodo r p e d =>
      if String.ltb chave (cpf_de m r) then
        Nodo r p (_remover m e chave) d
      else if String.ltb (cpf_de m r) chave then
        Nodo r p e (_remover m d chave)
      else
        match e with
        | Nulo => d
        | Nodo _ _ _ _ =>
            match d with
            | Nulo => e
            | Nodo _ _ _ _ =>
                match _minimo d with
                | Nodo rs ps _ _ =>
                    Nodo rs ps e (_remover m d (cpf_de m rs))
                | Nulo => no
                end
            end
        end
  end.

Definition remover (m : memoria) (self : t) (chave : string) : t :=
  {| raiz := _remover m (raiz self) chave |}.

(** [ArvoreBinariaBusca(registros_iter)]: the constructor inserts the
    given (record, position) pairs one by one. *)
Definition init (m : memoria) (registros_iter : list (ref * Z)) : t :=
  fold_left (fun self '(reg, pos) => fst (inserir m self reg pos))
    registros_iter nova.

Definition destruir (self : t) : t := {| raiz := Nulo |}.

(** [copy.deepcopy(no.registro)]: a new object with the same field
    values; the memory grows by that object. *)
Definition deepcopy_Registro (m : memoria) (r : ref) : memoria * ref :=
  (m ++ option_list (m !! r), length m).

(** [copiar_no]: the node gets its copied record first, then the left
    subtree is copied, then the right one. *)
Fixpoint copiar_no (m : memoria) (no : No) : memoria * No :=
  match no with
  | Nulo => (m, Nulo)
  | Nodo r p e d =>
      let '(m1, r') := deepcopy_Registro m r in
      let '(m2, e') := copiar_no m1 e in
      let '(m3, d') := copiar_no m2 d in
      (m3, Nodo r' p e' d')
  end.

(** [__deepcopy__] *)
Definition deepcopy (m : memoria) (self : t) : memoria * t :=
  let '(m', no) := copiar_no m (raiz self) in
  (m', {| raiz := no |}).

(** Traversals: each returns the list of record objects visited. *)
Fixpoint _pre_ordem (no : No) (resultado : list ref) : list ref :=
  match no with
  | Nulo => resultado
  | Nodo r _ e d => _pre_ordem d (_pre_ordem e (resultado ++ [r]))
  end.

Definition pre_ordem (self : t) : list ref := _pre_ordem (raiz self) [].

Fixpoint _em_ordem (no : No) (resultado : list ref) : list ref :=
  match no with
  | Nulo => resultado
  | Nodo r _ e d => _em_ordem d (_em_ordem e resultado ++ [r])
  end.

Definition em_ordem (self : t) : list ref := _em_ordem (raiz self) [].

Fixpoint _pos_ordem (no : No) (resultado : list ref) : list ref :=
  match no with
  | Nulo => resultado
  | Nodo r _ e d => _pos_ordem d (_pos_ordem e resultado) ++ [r]
  end.

Definition pos_ordem (self : t) : list ref := _pos_ordem (raiz self) [].

(** The [while fila:] loop of [percurso_largura]; each turn pops one
    node, so the number of nodes in the tree bounds the turns. *)
Fixpoint largura_laco (voltas : nat) (fila : list No)
    (resultado : list ref) : list ref :=
  match voltas with
  | O => resultado
  | S voltas' =>
      match fila with
      | [] => resultado
      | Nulo :: _ => resultado
      | Nodo r _ e d :: fila0 =>
          let fila1 :=
            match e with Nulo => fila0 | Nodo _ _ _ _ => fila0 ++ [e] end in
          let fila2 :=
            match d with Nulo => fila1 | Nodo _ _ _ _ => fila1 ++ [d] end in
          largura_laco voltas' fila2 (resultado ++ [r])
      end
  end.

Definition percurso_largura (self : t) : list ref :=
  match raiz self with
  | Nulo => []
  | Nodo _ _ _ _ => largura_laco (tamanho (raiz self)) [raiz self] []
  end.

End ArvoreBinariaBusca.

(** ** The record file: [ArquivoRegistros] *)

Module ArquivoRegistros.

Record t : Type := { registros : list ref }.

Definition novo : t := {| registros := [] |}.

Definition len (self : t) : Z := Z.of_nat (length (registros self)).

Definition inserir (self : t) (registro : ref) : t * Z :=
  let self' := {| registros := registros self ++ [registro] |} in
  (self', len self' - 1).

Definition buscar_por_posicao (self : t) (posicao : Z) : option ref :=
  if (0 <=? posicao) && (posicao <? len self)
  then registros self !! Z.to_nat posicao
  else None.

(** Mutates the record object stored in the slot. *)
Definition deletar (m : memoria) (self : t) (posicao : Z) : memoria :=
  if (0 <=? posicao) && (posicao <? len self)
  then match registros self !! Z.to_nat posicao with
       | Some r => zerar_em m r
       | None => m
       end
  else m.

End ArquivoRegistros.

(** ** The table manager: [SistemaGerenciadorBD] *)

Module SistemaGerenciadorBD.

Record t : Type := {
  arquivo : ArquivoRegistros.t;
  indice : ArvoreBinariaBusca.t
}.

Definition novo : t :=
  {| arquivo := ArquivoRegistros.novo; indice := ArvoreBinariaBusca.nova |}.

Definition inserir_registro (m : memoria) (self : t) (registro : ref)
    : t * list Evento :=
  let '(arq, posicao) := ArquivoRegistros.inserir (arquivo self) registro in
  let '(ind, out) :=
    ArvoreBinariaBusca.inserir m (indice self) registro posicao in
  ({| arquivo := arq; indice := ind |}, out).

Definition remover_registro_por_cpf (m : memoria) (self : t) (c : string)
    : memoria * t * list Evento :=
  match ArvoreBinariaBusca.buscar m (indice self) c with
  | Nodo _ posicao _ _ =>
      let m' := ArquivoRegistros.deletar m (arquivo self) posicao in
      let ind := ArvoreBinariaBusca.remover m' (indice self) c in
      (m', {| arquivo := arquivo self; indice := ind |},
       [RegistroRemovido c])
  | Nulo => (m, self, [RegistroNaoEncontrado c])
  end.

Definition buscar_registro_por_cpf (m : memoria) (self : t) (c : string)
    : option ref :=
  match ArvoreBinariaBusca.buscar m (indice self) c with
  | Nodo _ posicao _ _ =>
      match ArquivoRegistros.buscar_por_posicao (arquivo self) posicao with
      | Some registro =>
          if negb (deletado_de m registro) then Some registro else None
      | None => None
      end
  | Nulo => None
  end.

(** The nested [em_ordem_nos] walk. *)
Fixpoint em_ordem_nos (arq : ArquivoRegistros.t) (no : No)
    (registros_ordenados : list (option ref)) : list (option ref) :=
  match no with
  | Nulo => registros_ordenados
  | Nodo _ p e d =>
      em_ordem_nos arq d
        (em_ordem_nos arq e registros_ordenados
           ++ [ArquivoRegistros.buscar_por_posicao arq p])
  end.

Definition criar_arquivo_ordenado (self : t) : list (option ref) :=
  em_ordem_nos (arquivo self) (ArvoreBinariaBusca.raiz (indice self)) [].

End SistemaGerenciadorBD.

(** ** The running program: memory, table manager and its callers *)

Record Estado : Type := {
  mem : memoria;
  sgbd : SistemaGerenciadorBD.t
}.

Definition inicial : Estado :=
  {| mem := []; sgbd := SistemaGerenciadorBD.novo |}.

(** The calls a client can make.  The first allocates a record object;
    the next three act on [sgbd.arquivo], the following three on
    [sgbd.indice], the last four are the table manager's own methods. *)
Inductive Operacao : Type :=
| OpNovoRegistro (c n : string) (d : datetime) (del : bool)
| OpArquivoInserir (r : ref)
| OpArquivoBuscarPorPosicao (p : Z)
| OpArquivoDeletar (p : Z)
| OpIndiceInserir (r : ref) (p : Z)
| OpIndiceBuscar (k : string)
| OpIndiceRemover (k : string)
| OpInserirRegistro (r : ref)
| OpRemoverRegistroPorCpf (k : string)
| OpBuscarRegistroPorCpf (k : string)
| OpCriarArquivoOrdenado.

(** A client can only pass a record object that exists. *)
Definition ref_valida (m : memoria) (r : ref) : bool :=
  Nat.ltb r (length m).

Definition executa (op : Operacao) (s : Estado) : Estado :=
  let m := mem s in
  let g := sgbd s in
  match op with
  | OpNovoRegistro c n d del =>
      {| mem := fst (novo_Registro m c n d del); sgbd := g |}
  | OpArquivoInserir r =>
      if ref_valida m r then
        {| mem := m;
           sgbd :=
             {| SistemaGerenciadorBD.arquivo :=
                  fst (ArquivoRegistros.inserir
                         (SistemaGerenciadorBD.arquivo g) r);
                SistemaGerenciadorBD.indice :=
                  SistemaGerenciadorBD.indice g |} |}
      else s
  | OpArquivoDeletar p =>
      {| mem := ArquivoRegistros.deletar m (SistemaGerenciadorBD.arquivo g) p;
         sgbd := g |}
  | OpIndiceInserir r p =>
      if ref_valida m r then
        {| mem := m;
           sgbd :=
             {| SistemaGerenciadorBD.arquivo :=
                  SistemaGerenciadorBD.arquivo g;
                SistemaGerenciadorBD.indice :=
                  fst (ArvoreBinariaBusca.inserir m
                         (SistemaGerenciadorBD.indice g) r p) |} |}
      else s
  | OpIndiceRemover k =>
      {| mem := m;
         sgbd :=
           {| SistemaGerenciadorBD.arquivo := SistemaGerenciadorBD.arquivo g;
              SistemaGerenciadorBD.indice :=
                ArvoreBinariaBusca.remover m
                  (SistemaGerenciadorBD.indice g) k |} |}
  | OpInserirRegistro r =>
      if ref_valida m r then
        {| mem := m;
           sgbd := fst (SistemaGerenciadorBD.inserir_registro m g r) |}
      else s
  | OpRemoverRegistroPorCpf k =>
      let '(m', g', _) :=
        SistemaGerenciadorBD.remover_registro_por_cpf m g k in
      {| mem := m'; sgbd := g' |}
  | OpArquivoBuscarPorPosicao _
  | OpIndiceBuscar _
  | OpBuscarRegistroPorCpf _
  | OpCriarArquivoOrdenado => s
  end.

Definition executa_todas (ops : list Operacao) (s : Estado) : Estado :=
  fold_left (fun s op => executa op s) ops s.

(** The operations of the table manager's public surface. *)
Definition pelo_gerenciador (op : Operacao) : bool :=
  match op with
  | OpNovoRegistro _ _ _ _
  | OpInserirRegistro _
  | OpRemoverRegistroPorCpf _
  | OpBuscarRegistroPorCpf _
  | OpCriarArquivoOrdenado => true
  | _ => false
  end.

(** Observations on a state. *)
Definition raiz_de (s : Estado) : No :=
  ArvoreBinariaBusca.raiz (SistemaGerenciadorBD.indice (sgbd s)).

Definition registros_de (s : Estado) : list ref :=
  ArquivoRegistros.registros (SistemaGerenciadorBD.arquivo (sgbd s)).

Definition chaves (m : memoria) (l : list ref) : list string :=
  map (cpf_de m) l.

Definition buscar_em (s : Estado) (k : string) : option ref :=
  SistemaGerenciadorBD.buscar_registro_por_cpf (mem s) (sgbd s) k.

(** Key [k] is present in the index: the search returns a node. *)
Definition presente (m : memoria) (no : No) (k : string) : Prop :=
  ArvoreBinariaBusca._buscar m no k <> Nulo.

(** The record held by the store slot at position [p], if any. *)
Definition registro_na_posicao (s : Estado) (p : nat) : option Registro :=
  match registros_de s !! p with
  | Some r => mem s !! r
  | None => None
  end.

(** ** Invariants of the table *)

(** Every index node holds the very object stored in the file slot it
    points at, and every slot holds an allocated object. *)
Definition coerente (s : Estado) : Prop :=
  (forall r p, In (r, p) (entradas (raiz_de s)) ->
     0 <= p /\ registros_de s !! Z.to_nat p = Some r)
  /\ (forall r, In r (registros_de s) -> (r < length (mem s))%nat).

(** The record left behind by [zerar]. *)
Definition registro_zerado : Registro :=
  {| cpf := ""; nome := ""; data_nascimento := None; deletado := true |}.

(** The slot at position [p] holds a record that has been zeroed. *)
Definition posicao_zerada (s : Estado) (p : nat) : Prop :=
  registro_na_posicao s p = Some registro_zerado.


(** To the right of a node whose key is not empty, every key is either
    greater than the node's or empty (a zeroed record). *)
Fixpoint ordem_a_direita (m : memoria) (no : No) : Prop :=
  match no with
  | Nulo => True
  | Nodo r _ e d =>
      (cpf_de m r <> "" ->
       Forall (fun x : ref * Z =>
                 cpf_de m (fst x) = ""
                 \/ String.ltb (cpf_de m r) (cpf_de m (fst x)) = true)
              (entradas d))
      /\ ordem_a_direita m e /\ ordem_a_direita m d
  end.

(** Table-manager operations other than the deletion of the empty key. *)
Definition sem_remocao_vazia (op : Operacao) : bool :=
  pelo_gerenciador op
  && match op with
     | OpRemoverRegistroPorCpf k => negb (String.eqb k "")
     | _ => true
     end.

(** The invariant kept by insertions and by deletions of non-empty keys. *)
Definition bem_formado (s : Estado) : Prop :=
  coerente s /\ ordem_a_direita (mem s) (raiz_de s).

(** The key of the record held by an entry of the tree. *)
Definition chave_da_entrada (m : memoria) (x : ref * Z) : string :=
  cpf_de m (fst x).

(** The search-tree order on the keys read through the memory. *)
Fixpoint abb_ordenada (m : memoria) (no : No) : Prop :=
  match no with
  | Nulo => True
  | Nodo r _ e d =>
      Forall (fun x : ref * Z =>
                String.ltb (cpf_de m (fst x)) (cpf_de m r) = true)
             (entradas e)
      /\ Forall (fun x : ref * Z =>
                   String.ltb (cpf_de m r) (cpf_de m (fst x)) = true)
                (entradas d)
      /\ abb_ordenada m e /\ abb_ordenada m d
  end.

(** Calls on the index alone, the record objects left as they are. *)
Inductive OpIndice : Type :=
| IInserir (r : ref) (p : Z)
| IRemover (k : string).

Definition executa_indice (m : memoria) (a : ArvoreBinariaBusca.t)
    (op : OpIndice) : ArvoreBinariaBusca.t :=
  match op with
  | IInserir r p => fst (ArvoreBinariaBusca.inserir m a r p)
  | IRemover k => ArvoreBinariaBusca.remover m a k
  end.

(** ** Further observations *)

(** [Registro.__eq__] *)
Definition Registro_eq (m : memoria) (a b : ref) : bool :=
  String.eqb (cpf_de m a) (cpf_de m b).

(** The record and position of the node a search returns. *)
Definition achado (m : memoria) (no : No) (k : string) : option (ref * Z) :=
  match ArvoreBinariaBusca._buscar m no k with
  | Nulo => None
  | Nodo r p _ _ => Some (r, p)
  end.

(** The records held at depth [n], left to right. *)
Fixpoint nivel (n : nat) (no : No) {struct no} : list ref :=
  match no with
  | Nulo => []
  | Nodo r _ e d =>
      match n with
      | O => [r]
      | S n' => nivel n' e ++ nivel n' d
      end
  end.

Fixpoint altura (no : No) : nat :=
  match no with
  | Nulo => O
  | Nodo _ _ e d => S (Nat.max (altura e) (altura d))
  end.

(** Level order: depth 0, then depth 1, and so on. *)
Definition por_niveis (no : No) : list ref :=
  flat_map (fun n => nivel n no) (seq 0 (altura no)).

(** [no'] has the shape and positions of [no], and each of its records
    is an object allocated after [m] that reads in [m'] as the record of
    the matching node reads in [m]. *)
Fixpoint copia_fiel (m m' : memoria) (no no' : No) : Prop :=
  match no, no' with
  | Nulo, Nulo => True
  | Nodo r p e d, Nodo r' p' e' d' =>
      p' = p /\ (length m <= r')%nat /\ m' !! r' = m !! r
      /\ copia_fiel m m' e e' /\ copia_fiel m m' d d'
  | _, _ => False
  end.

(** The records of the nodes are allocated objects. *)
Definition refs_validas (m : memoria) (no : No) : Prop :=
  Forall (fun x : ref * Z => (fst x < length m)%nat) (entradas no).

(** The key test of [_remover]'s last branch, on an entry. *)
Definition outra_chave (m : memoria) (k : string) (x : ref * Z) : bool :=
  negb (String.eqb (chave_da_entrada m x) k).

(** The key test of [_buscar]'s first branch, on an entry. *)
Definition tem_chave (m : memoria) (k : string) (x : ref * Z) : bool :=
  String.eqb k (chave_da_entrada m x).

(** What the breadth-first loop still has to report when its queue is
    [q1 ++ q2], the nodes of [q1] lying one level above those of [q2]:
    the records of [q1], then level by level those below, the subtrees
    of [q2] before the subtrees of [q1]. *)
Definition niveis_da_fila (q1 q2 : list No) (h : nat) : list ref :=
  flat_map (nivel 0) q1
  ++ flat_map (fun n => flat_map (nivel n) q2 ++ flat_map (nivel (S n)) q1)
       (seq 0 h).

(** ** Sample sessions *)

Definition uma_data : datetime :=
  {| dia := 15%nat; mes := 3%nat; ano := 1985%nat |}.

(** [sgbd.inserir_registro(Registro(k, ...))]; [r] is the reference the
    allocation returns, the number of objects allocated before it. *)
Definition insere (k : string) (r : ref) : list Operacao :=
  [OpNovoRegistro k "Maria" uma_data false; OpInserirRegistro r].

(** A session that deletes the empty key three times. *)
Definition sessao_com_remocao_vazia : list Operacao :=
  insere "c" 0%nat ++ insere "b" 1%nat ++ insere "d" 2%nat
  ++ [OpRemoverRegistroPorCpf "c"]
  ++ insere "c" 3%nat ++ [OpRemoverRegistroPorCpf "c"]
  ++ insere "c" 4%nat ++ insere "a" 5%nat
  ++ [OpRemoverRegistroPorCpf "c"]
  ++ insere "a" 6%nat ++ [OpRemoverRegistroPorCpf "d"]
  ++ insere "a" 7%nat
  ++ [OpRemoverRegistroPorCpf ""; OpRemoverRegistroPorCpf "";
      OpRemoverRegistroPorCpf ""].

(** The keys of a list are in strictly ascending order. *)
Definition estritamente_crescente (l : list string) : Prop :=
  StronglySorted (fun a b => String.ltb a b = true) l.

Definition tamanho_fila (fila : list No) : nat :=
  fold_right (fun no n => (tamanho no + n)%nat) O fila.

(** * Properties *)

(** ** The order on keys *)

Section OrdemDasChaves.

Lemma ltb_Lt (a b : string) :
  String.ltb a b = true <-> String.compare a b = Lt.
Proof.
  unfold String.ltb. destruct (String.compare a b); split; congruence.
Qed.

Lemma ascii_compare_refl (x : ascii) : Ascii.compare x x = Eq.
Proof. unfold Ascii.compare. apply N.compare_refl. Qed.

Lemma compare_refl (a : string) : String.compare a a = Eq.
Proof.
  induction a as [|x a IH]; simpl; [reflexivity|].
  now rewrite ascii_compare_refl.
Qed.

Lemma ltb_irrefl (a : string) : String.ltb a a = false.
Proof. unfold String.ltb. now rewrite compare_refl. Qed.

Lemma ltb_asym (a b : string) :
  String.ltb a b = true -> String.ltb b a = false.
Proof.
  unfold String.ltb. rewrite (String.compare_antisym b a).
  destruct (String.compare a b); simpl; congruence.
Qed.

Lemma ltb_tricotomia (a b : string) :
  String.ltb a b = false -> String.ltb b a = false -> a = b.
Proof.
  unfold String.ltb. rewrite (String.compare_antisym b a).
  destruct (String.compare a b) eqn:E; simpl; try congruence.
  intros _ _. now apply String.compare_eq_iff.
Qed.

Lemma ltb_neq (a b : string) : String.ltb a b = true -> a <> b.
Proof. intros H ->. rewrite ltb_irrefl in H. discriminate. Qed.

Lemma ascii_compare_Lt_trans (a b c : ascii) :
  Ascii.compare a b = Lt -> Ascii.compare b c = Lt ->
  Ascii.compare a c = Lt.
Proof.
  unfold Ascii.compare. rewrite !N.compare_lt_iff. apply N.lt_trans.
Qed.

Lemma compare_Lt_trans (a : string) :
  forall b c, String.compare a b = Lt -> String.compare b c = Lt ->
              String.compare a c = Lt.
Proof.
  induction a as [|x a IH]; intros [|y b] [|z c]; simpl;
    try congruence.
  destruct (Ascii.compare x y) eqn:Exy; try discriminate;
    destruct (Ascii.compare y z) eqn:Eyz; try discriminate; intros Hab Hbc.
  - apply Ascii.compare_eq_iff in Exy, Eyz. subst.
    rewrite ascii_compare_refl. eauto.
  - apply Ascii.compare_eq_iff in Exy. subst. now rewrite Eyz.
  - apply Ascii.compare_eq_iff in Eyz. subst. now rewrite Exy.
  - now rewrite (ascii_compare_Lt_trans _ _ _ Exy Eyz).
Qed.

Lemma ltb_trans (a b c : string) :
  String.ltb a b = true -> String.ltb b c = true -> String.ltb a c = true.
Proof. rewrite !ltb_Lt. apply compare_Lt_trans. Qed.

Lemma ltb_vazia_r (k : string) : String.ltb k "" = false.
Proof. destruct k; reflexivity. Qed.

Lemma ltb_vazia_l (k : string) : k <> "" -> String.ltb "" k = true.
Proof. destruct k; [congruence | reflexivity]. Qed.

End OrdemDasChaves.

(** Membership in the concatenations built by the traversals. *)
Ltac resolve_in :=
  repeat (progress (rewrite ?in_app_iff in *; cbn [In] in * ));
  intuition (subst; auto).

(** ** Searching and inserting follow the same path *)

Section BuscaEInsercao.

Variable m : memoria.

Lemma _buscar_Nulo (k : string) : ArvoreBinariaBusca._buscar m Nulo k = Nulo.
Proof. reflexivity. Qed.

Lemma presente_nao_nulo (no : No) (k : string) :
  presente m no k -> no <> Nulo.
Proof. intros H ->. now apply H. Qed.

(** A key that the search finds makes [_inserir] take its last branch. *)
Lemma _inserir_presente (r : ref) (p : Z) (no : No) :
  presente m no (cpf_de m r) ->
  ArvoreBinariaBusca._inserir m no r p
  = (no, [ChaveJaExiste (cpf_de m r)]).
Proof.
  induction no as [|r0 p0 e IHe d IHd]; intros H.
  - now contradiction H.
  - unfold presente in H. simpl in *.
    unfold Registro_gt, Registro_lt.
    destruct (String.eqb_spec (cpf_de m r) (cpf_de m r0)) as [E|NE].
    + rewrite E, ltb_irrefl. reflexivity.
    + destruct (String.ltb (cpf_de m r) (cpf_de m r0)) eqn:L.
      * pose proof (presente_nao_nulo _ _ H) as Hn.
        destruct e as [|re pe ee de]; [congruence|].
        now rewrite (IHe H).
      * destruct (String.ltb (cpf_de m r0) (cpf_de m r)) eqn:G.
        -- pose proof (presente_nao_nulo _ _ H) as Hn.
           destruct d as [|rd pd ed dd]; [congruence|].
           now rewrite (IHd H).
        -- contradiction NE. now apply ltb_tricotomia.
Qed.

(** After an insertion the key is found, whatever the tree was. *)
Lemma _inserir_torna_presente (r : ref) (p : Z) (no : No) :
  no <> Nulo ->
  presente m (fst (ArvoreBinariaBusca._inserir m no r p)) (cpf_de m r).
Proof.
  induction no as [|r0 p0 e IHe d IHd]; intros Hn; [congruence|].
  unfold presente in *. simpl.
  unfold Registro_gt, Registro_lt.
  destruct (String.ltb (cpf_de m r) (cpf_de m r0)) eqn:L.
  - assert (String.eqb (cpf_de m r) (cpf_de m r0) = false) as NE
      by (apply String.eqb_neq; now apply ltb_neq).
    destruct e as [|re pe ee de].
    + simpl. rewrite NE, L, String.eqb_refl. discriminate.
    + destruct (ArvoreBinariaBusca._inserir m (Nodo re pe ee de) r p)
        as [e' out] eqn:E.
      simpl. rewrite NE, L.
      apply IHe. discriminate.
  - destruct (String.ltb (cpf_de m r0) (cpf_de m r)) eqn:G.
    + assert (String.eqb (cpf_de m r) (cpf_de m r0) = false) as NE
        by (apply String.eqb_neq; intros X; symmetry in X;
            now apply ltb_neq in G).
      destruct d as [|rd pd ed dd].
      * simpl. rewrite NE, L, String.eqb_refl. discriminate.
      * destruct (ArvoreBinariaBusca._inserir m (Nodo rd pd ed dd) r p)
          as [d' out] eqn:E.
        simpl. rewrite NE, L.
        apply IHd. discriminate.
    + simpl. rewrite (ltb_tricotomia _ _ L G), String.eqb_refl.
      discriminate.
Qed.

Lemma inserir_presente (a : ArvoreBinariaBusca.t) (r : ref) (p : Z) :
  presente m (ArvoreBinariaBusca.raiz a) (cpf_de m r) ->
  ArvoreBinariaBusca.inserir m a r p = (a, [ChaveJaExiste (cpf_de m r)]).
Proof.
  intros H. unfold ArvoreBinariaBusca.inserir.
  pose proof (presente_nao_nulo _ _ H) as Hn.
  destruct a as [no]. simpl in *.
  destruct no as [|r0 p0 e d]; [congruence|].
  now rewrite (_inserir_presente r p _ H).
Qed.

(** The pairs held by the tree after an insertion. *)
Lemma entradas__inserir (r : ref) (p : Z) (no : No) (x : ref * Z) :
  In x (entradas (fst (ArvoreBinariaBusca._inserir m no r p))) ->
  x = (r, p) \/ In x (entradas no).
Proof.
  induction no as [|r0 p0 e IHe d IHd]; simpl; [tauto|].
  destruct (Registro_lt m r r0).
  - destruct e as [|re pe ee de].
    + simpl. rewrite ?in_app_iff. simpl. intuition (subst; auto).
    + destruct (ArvoreBinariaBusca._inserir m (Nodo re pe ee de) r p)
        as [e' out] eqn:E.
      simpl in *. resolve_in.
  - destruct (Registro_gt m r r0).
    + destruct d as [|rd pd ed dd].
      * simpl. rewrite ?in_app_iff. simpl. intuition (subst; auto).
      * destruct (ArvoreBinariaBusca._inserir m (Nodo rd pd ed dd) r p)
          as [d' out] eqn:E.
        simpl in *. resolve_in.
    + simpl. tauto.
Qed.

Lemma entradas_inserir (a : ArvoreBinariaBusca.t) (r : ref) (p : Z)
    (x : ref * Z) :
  In x (entradas (ArvoreBinariaBusca.raiz
                    (fst (ArvoreBinariaBusca.inserir m a r p)))) ->
  x = (r, p) \/ In x (entradas (ArvoreBinariaBusca.raiz a)).
Proof.
  unfold ArvoreBinariaBusca.inserir. destruct a as [no]. simpl.
  destruct no as [|r0 p0 e d].
  - simpl. intuition (subst; auto).
  - pose proof (entradas__inserir r p (Nodo r0 p0 e d) x) as H.
    destruct (ArvoreBinariaBusca._inserir m (Nodo r0 p0 e d) r p)
      as [no' out]. exact H.
Qed.

(** The successor found by [_minimo] is a node of the subtree. *)
Lemma entradas__minimo (no : No) (rs : ref) (ps : Z) (es ds : No) :
  ArvoreBinariaBusca._minimo no = Nodo rs ps es ds ->
  In (rs, ps) (entradas no).
Proof.
  induction no as [|r0 p0 e IHe d IHd]; simpl; [discriminate|].
  destruct e as [|re pe ee de].
  - intros [= -> -> _ _]. simpl. now left.
  - intros H. apply in_app_iff. left. now apply IHe.
Qed.

Lemma _minimo_nao_nulo (no : No) :
  no <> Nulo -> ArvoreBinariaBusca._minimo no <> Nulo.
Proof.
  induction no as [|r0 p0 e IHe d IHd]; [congruence|]. intros _. simpl.
  destruct e; [discriminate|]. apply IHe. discriminate.
Qed.

(** Removal never invents a pair: promotion copies one from below. *)
Lemma entradas__remover (no : No) :
  forall (k : string) (x : ref * Z),
    In x (entradas (ArvoreBinariaBusca._remover m no k)) ->
    In x (entradas no).
Proof.
  induction no as [|r0 p0 e IHe d IHd]; intros k x; [simpl; tauto|].
  cbn [ArvoreBinariaBusca._remover].
  destruct (String.ltb k (cpf_de m r0)).
  - cbn [entradas]. rewrite !in_app_iff. cbn [In].
    intros [H|H]; eauto.
  - destruct (String.ltb (cpf_de m r0) k).
    + cbn [entradas]. rewrite !in_app_iff. cbn [In].
      intros [H|[H|H]]; eauto.
    + destruct e as [|re pe ee de].
      * intros H. cbn [entradas]. apply in_app_iff. right. now right.
      * destruct d as [|rd pd ed dd].
        -- intros H. cbn [entradas]. apply in_app_iff. now left.
        -- destruct (ArvoreBinariaBusca._minimo (Nodo rd pd ed dd))
             as [|rs ps es ds] eqn:M; [tauto|].
           apply entradas__minimo in M.
           remember (Nodo rd pd ed dd) as dir.
           remember (Nodo re pe ee de) as esq.
           cbn [entradas]. rewrite !in_app_iff. cbn [In].
           intros [H|[H|H]].
           ++ now left.
           ++ subst x. right. now right.
           ++ right. right. eapply IHd. exact H.
Qed.

End BuscaEInsercao.


(** ** The index alone keeps its keys in order *)

(** As long as no record object changes under the tree, [_inserir] and
    [_remover] keep the search-tree order.  The table manager breaks
    this premise: [zerar] rewrites the key of a record the tree holds. *)

Section OrdemDoIndice.

Variable m : memoria.

Local Abbreviation chave_de := (chave_da_entrada m).

Lemma _em_ordem_entradas (no : No) :
  forall resultado : list ref,
    ArvoreBinariaBusca._em_ordem no resultado
    = resultado ++ map fst (entradas no).
Proof.
  induction no as [|r p e IHe d IHd]; intros resultado; simpl.
  - now rewrite app_nil_r.
  - rewrite IHd, IHe, map_app. simpl. now rewrite <- !app_assoc.
Qed.

Lemma crescente_app (l1 l2 : list string) :
  estritamente_crescente l1 -> estritamente_crescente l2 ->
  (forall a b, In a l1 -> In b l2 -> String.ltb a b = true) ->
  estritamente_crescente (l1 ++ l2).
Proof.
  unfold estritamente_crescente.
  induction l1 as [|a l1 IH]; intros H1 H2 H12; [exact H2|].
  inversion H1 as [|? ? H1' Ha]; subst. simpl. constructor.
  - apply IH; auto. intros x y Hx Hy. apply H12; [now right | exact Hy].
  - apply Forall_app. split; [exact Ha|].
    apply List.Forall_forall. intros y Hy. apply H12; [now left | exact Hy].
Qed.

Lemma abb_ordenada_crescente (no : No) :
  abb_ordenada m no ->
  estritamente_crescente (map chave_de (entradas no)).
Proof.
  induction no as [|r p e IHe d IHd]; [constructor|].
  intros [He [Hd [Hoe Hod]]]. cbn [entradas]. rewrite map_app. simpl.
  rewrite List.Forall_forall in He, Hd.
  apply crescente_app.
  - now apply IHe.
  - constructor; [now apply IHd|].
    apply List.Forall_forall. intros y Hy.
    apply in_map_iff in Hy as [x [<- Hx]]. now apply Hd.
  - intros a b Ha Hb. apply in_map_iff in Ha as [x [<- Hx]].
    pose proof (He x Hx) as Hlt.
    destruct Hb as [<-|Hb]; [exact Hlt|].
    apply in_map_iff in Hb as [y [<- Hy]].
    eapply ltb_trans; [exact Hlt | now apply Hd].
Qed.

Lemma abb_ordenada__inserir (r : ref) (p : Z) (no : No) :
  abb_ordenada m no ->
  abb_ordenada m (fst (ArvoreBinariaBusca._inserir m no r p)).
Proof.
  induction no as [|r0 p0 e IHe d IHd]; [trivial|].
  intros [He [Hd [Hoe Hod]]]. cbn [ArvoreBinariaBusca._inserir].
  unfold Registro_gt, Registro_lt.
  destruct (String.ltb (cpf_de m r) (cpf_de m r0)) eqn:L.
  - destruct e as [|re pe ee de].
    + cbn. repeat split; auto.
    + specialize (IHe Hoe).
      pose proof (entradas__inserir m r p (Nodo re pe ee de)) as Hin.
      destruct (ArvoreBinariaBusca._inserir m (Nodo re pe ee de) r p)
        as [e' out].
      cbn [fst] in *. cbn [abb_ordenada]. repeat split; auto.
      rewrite List.Forall_forall in He |- *. intros x Hx.
      destruct (Hin x Hx) as [->|Hold]; [exact L | now apply He].
  - destruct (String.ltb (cpf_de m r0) (cpf_de m r)) eqn:G.
    + destruct d as [|rd pd ed dd].
      * cbn. repeat split; auto.
      * specialize (IHd Hod).
        pose proof (entradas__inserir m r p (Nodo rd pd ed dd)) as Hin.
        destruct (ArvoreBinariaBusca._inserir m (Nodo rd pd ed dd) r p)
          as [d' out].
        cbn [fst] in *. cbn [abb_ordenada]. repeat split; auto.
        rewrite List.Forall_forall in Hd |- *. intros x Hx.
        destruct (Hin x Hx) as [->|Hold]; [exact G | now apply Hd].
    + cbn. repeat split; auto.
Qed.

(** In an ordered tree [_minimo] returns the smallest key. *)
Lemma _minimo_menor (no : No) (rs : ref) (ps : Z) (es ds : No) :
  abb_ordenada m no ->
  ArvoreBinariaBusca._minimo no = Nodo rs ps es ds ->
  Forall (fun x => chave_de x = cpf_de m rs
                   \/ String.ltb (cpf_de m rs) (chave_de x) = true)
         (entradas no).
Proof.
  induction no as [|r0 p0 e IHe d IHd]; [discriminate|].
  intros [He [Hd [Hoe Hod]]] M. cbn [ArvoreBinariaBusca._minimo] in M.
  cbn [entradas]. destruct e as [|re pe ee de].
  - injection M as -> -> _ _. simpl. constructor; [now left|].
    eapply Forall_impl; [exact Hd|]. intros x Hx. now right.
  - specialize (IHe Hoe M).
    pose proof (entradas__minimo _ _ _ _ _ M) as Hs.
    rewrite List.Forall_forall in He. pose proof (He _ Hs) as Hlt.
    simpl in Hlt. apply Forall_app. split; [exact IHe|].
    constructor; [now right|].
    eapply Forall_impl; [exact Hd|]. intros x Hx. right.
    eapply ltb_trans; [exact Hlt | exact Hx].
Qed.

(** After [_remover] no node of an ordered tree holds the key. *)
Lemma _remover_tira_chave (no : No) :
  forall k : string,
    abb_ordenada m no ->
    Forall (fun x => chave_de x <> k)
           (entradas (ArvoreBinariaBusca._remover m no k)).
Proof.
  induction no as [|r0 p0 e IHe d IHd]; intros k; [constructor|].
  intros [He [Hd [Hoe Hod]]]. cbn [ArvoreBinariaBusca._remover].
  assert (Forall (fun x => chave_de x <> cpf_de m r0) (entradas e)) as Hesq.
  { eapply Forall_impl; [exact He|]. intros x Hx. now apply ltb_neq. }
  assert (Forall (fun x => chave_de x <> cpf_de m r0) (entradas d)) as Hdir.
  { eapply Forall_impl; [exact Hd|]. intros x Hx.
    apply not_eq_sym. now apply ltb_neq. }
  destruct (String.ltb k (cpf_de m r0)) eqn:L.
  - cbn [entradas]. apply Forall_app. split; [now apply IHe|].
    constructor; [apply not_eq_sym; now apply ltb_neq|].
    eapply Forall_impl; [exact Hd|]. intros x Hx.
    apply not_eq_sym, ltb_neq. eapply ltb_trans; [exact L | exact Hx].
  - destruct (String.ltb (cpf_de m r0) k) eqn:G.
    + cbn [entradas]. apply Forall_app. split.
      * eapply Forall_impl; [exact He|]. intros x Hx.
        apply ltb_neq. eapply ltb_trans; [exact Hx | exact G].
      * constructor; [now apply ltb_neq | now apply IHd].
    + pose proof (ltb_tricotomia _ _ L G) as ->.
      destruct e as [|re pe ee de]; [exact Hdir|].
      destruct d as [|rd pd ed dd]; [exact Hesq|].
      destruct (ArvoreBinariaBusca._minimo (Nodo rd pd ed dd))
        as [|rs ps es ds] eqn:M.
      { now apply _minimo_nao_nulo in M. }
      pose proof (entradas__minimo _ _ _ _ _ M) as Hs.
      remember (Nodo rd pd ed dd) as dir. remember (Nodo re pe ee de) as esq.
      cbn [entradas]. apply Forall_app. split; [exact Hesq|].
      rewrite List.Forall_forall in Hdir |- *.
      intros x [<-|Hx]; [now apply Hdir|].
      apply Hdir. eapply entradas__remover. exact Hx.
Qed.

Lemma abb_ordenada__remover (no : No) :
  forall k : string,
    abb_ordenada m no ->
    abb_ordenada m (ArvoreBinariaBusca._remover m no k).
Proof.
  induction no as [|r0 p0 e IHe d IHd]; intros k; [trivial|].
  intros [He [Hd [Hoe Hod]]]. cbn [ArvoreBinariaBusca._remover].
  destruct (String.ltb k (cpf_de m r0)) eqn:L.
  - cbn [abb_ordenada]. repeat split; auto.
    rewrite List.Forall_forall in He |- *. intros x Hx.
    apply He. eapply entradas__remover. exact Hx.
  - destruct (String.ltb (cpf_de m r0) k) eqn:G.
    + cbn [abb_ordenada]. repeat split; auto.
      rewrite List.Forall_forall in Hd |- *. intros x Hx.
      apply Hd. eapply entradas__remover. exact Hx.
    + destruct e as [|re pe ee de]; [exact Hod|].
      destruct d as [|rd pd ed dd]; [exact Hoe|].
      destruct (ArvoreBinariaBusca._minimo (Nodo rd pd ed dd))
        as [|rs ps es ds] eqn:M.
      { now apply _minimo_nao_nulo in M. }
      pose proof (entradas__minimo _ _ _ _ _ M) as Hs.
      pose proof (_minimo_menor _ _ _ _ _ Hod M) as Hmin.
      pose proof (_remover_tira_chave _ (cpf_de m rs) Hod) as Htira.
      remember (Nodo rd pd ed dd) as dir. remember (Nodo re pe ee de) as esq.
      rewrite List.Forall_forall in He, Hd, Hmin, Htira.
      pose proof (Hd _ Hs) as Hk0s. simpl in Hk0s.
      cbn [abb_ordenada]. repeat split; auto.
      * apply List.Forall_forall. intros x Hx.
        eapply ltb_trans; [now apply He | exact Hk0s].
      * apply List.Forall_forall. intros x Hx.
        destruct (Hmin x (entradas__remover _ _ _ _ Hx)) as [E|Hlt];
          [|exact Hlt].
        now apply Htira in Hx.
Qed.

(** In an ordered tree a key held by some node is found by the search. *)
Lemma abb_ordenada_presente (no : No) (k : string) :
  abb_ordenada m no -> In k (map chave_de (entradas no)) ->
  presente m no k.
Proof.
  unfold presente.
  induction no as [|r0 p0 e IHe d IHd]; [intros _ []|].
  intros [He [Hd [Hoe Hod]]] Hin. simpl.
  destruct (String.eqb_spec k (cpf_de m r0)) as [E|NE]; [discriminate|].
  cbn [entradas] in Hin. rewrite map_app in Hin.
  rewrite List.Forall_forall in He, Hd.
  apply in_app_iff in Hin as [Hin|[Hin|Hin]].
  - apply in_map_iff in Hin as [x [<- Hx]]. unfold chave_da_entrada at 1.
    rewrite (He x Hx). apply IHe; [exact Hoe|].
    apply in_map_iff. now exists x.
  - now contradiction NE.
  - apply in_map_iff in Hin as [x [<- Hx]]. unfold chave_da_entrada at 1.
    rewrite (ltb_asym _ _ (Hd x Hx)). apply IHd; [exact Hod|].
    apply in_map_iff. now exists x.
Qed.

Lemma abb_ordenada_executa_indice (a : ArvoreBinariaBusca.t)
    (op : OpIndice) :
  abb_ordenada m (ArvoreBinariaBusca.raiz a) ->
  abb_ordenada m (ArvoreBinariaBusca.raiz (executa_indice m a op)).
Proof.
  intros H. destruct op as [r p|k]; cbn [executa_indice].
  - unfold ArvoreBinariaBusca.inserir. destruct a as [no]. simpl in *.
    destruct no as [|r0 p0 e d].
    + cbn. repeat split; auto.
    + pose proof (abb_ordenada__inserir r p _ H) as H'.
      destruct (ArvoreBinariaBusca._inserir m (Nodo r0 p0 e d) r p)
        as [no' out]. exact H'.
  - now apply abb_ordenada__remover.
Qed.

(** Every tree built from the empty index by [inserir] and [remover]
    alone lists its keys in strictly ascending order. *)
Lemma indice_mantem_ordem (ops : list OpIndice) :
  estritamente_crescente
    (chaves m (ArvoreBinariaBusca.em_ordem
                 (fold_left (executa_indice m) ops
                    ArvoreBinariaBusca.nova))).
Proof.
  assert (forall a, abb_ordenada m (ArvoreBinariaBusca.raiz a) ->
            abb_ordenada m
              (ArvoreBinariaBusca.raiz
                 (fold_left (executa_indice m) ops a))) as H.
  { induction ops as [|op ops IH]; intros a Ha; [exact Ha|].
    simpl. apply IH. now apply abb_ordenada_executa_indice. }
  specialize (H ArvoreBinariaBusca.nova I).
  apply abb_ordenada_crescente in H.
  unfold ArvoreBinariaBusca.em_ordem, chaves.
  rewrite _em_ordem_entradas. simpl. rewrite map_map. exact H.
Qed.

End OrdemDoIndice.

(** ** Duplicate keys *)

(** Whatever the tree, a key that has just been inserted is found, so a
    second insertion of the same key is rejected. *)
Lemma inserir_torna_presente (m : memoria) (a : ArvoreBinariaBusca.t)
    (r : ref) (p : Z) :
  presente m
    (ArvoreBinariaBusca.raiz (fst (ArvoreBinariaBusca.inserir m a r p)))
    (cpf_de m r).
Proof.
  unfold ArvoreBinariaBusca.inserir. destruct a as [no]. simpl.
  destruct no as [|r0 p0 e d].
  - unfold presente. simpl. rewrite String.eqb_refl. discriminate.
  - pose proof (_inserir_torna_presente m r p (Nodo r0 p0 e d)
                  ltac:(discriminate)) as H.
    destruct (ArvoreBinariaBusca._inserir m (Nodo r0 p0 e d) r p)
      as [no' out]. exact H.
Qed.

Lemma segunda_insercao_rejeitada (m : memoria) (a : ArvoreBinariaBusca.t)
    (r r' : ref) (p p' : Z) :
  cpf_de m r' = cpf_de m r ->
  let a1 := fst (ArvoreBinariaBusca.inserir m a r p) in
  ArvoreBinariaBusca.inserir m a1 r' p' = (a1, [ChaveJaExiste (cpf_de m r)]).
Proof.
  intros E a1. rewrite <- E. apply inserir_presente. rewrite E.
  apply inserir_torna_presente.
Qed.

(** X22: when the index search finds the key of the record -- or the
    tree is ordered and some node holds that key -- [inserir] reports the
    duplicate and returns the tree as it was, so the number of nodes does
    not change. *)
Theorem X22_chave_encontrada_e_rejeitada :
  forall (m : memoria) (a : ArvoreBinariaBusca.t) (r : ref) (p : Z),
    presente m (ArvoreBinariaBusca.raiz a) (cpf_de m r)
    \/ (abb_ordenada m (ArvoreBinariaBusca.raiz a)
        /\ In (cpf_de m r) (chaves m (ArvoreBinariaBusca.em_ordem a))) ->
    ArvoreBinariaBusca.inserir m a r p = (a, [ChaveJaExiste (cpf_de m r)])
    /\ tamanho (ArvoreBinariaBusca.raiz
                  (fst (ArvoreBinariaBusca.inserir m a r p)))
       = tamanho (ArvoreBinariaBusca.raiz a).
Proof.
  intros m a r p H.
  assert (presente m (ArvoreBinariaBusca.raiz a) (cpf_de m r)) as Hp.
  { destruct H as [H|[Ho Hin]]; [exact H|].
    apply abb_ordenada_presente; [exact Ho|].
    unfold ArvoreBinariaBusca.em_ordem, chaves in Hin.
    rewrite _em_ordem_entradas in Hin. simpl in Hin.
    now rewrite map_map in Hin. }
  rewrite (inserir_presente m a r p Hp). split; reflexivity.
Qed.

Lemma X22_chave_encontrada_e_rejeitada_witness :
  let m := [ {| cpf := "X"; nome := "a"; data_nascimento := None;
                deletado := false |};
             {| cpf := "X"; nome := "b"; data_nascimento := None;
                deletado := false |} ] in
  let a := {| ArvoreBinariaBusca.raiz := Nodo 0%nat 0 Nulo Nulo |} in
  ArvoreBinariaBusca.inserir m a 1%nat 1 = (a, [ChaveJaExiste "X"])
  /\ tamanho (ArvoreBinariaBusca.raiz
                (fst (ArvoreBinariaBusca.inserir m a 1%nat 1))) = 1%nat.
Proof.
  intros m a.
  apply (X22_chave_encontrada_e_rejeitada m a 1%nat 1).
  left. unfold presente. vm_compute. discriminate.
Defined.

(** ** The record file *)

Lemma posicoes_do_arquivo (m : memoria) (a : ArquivoRegistros.t) (p : Z) :
  (0 <= p < ArquivoRegistros.len a ->
     exists r, ArquivoRegistros.registros a !! Z.to_nat p = Some r
               /\ ArquivoRegistros.buscar_por_posicao a p = Some r)
  /\ (~ (0 <= p < ArquivoRegistros.len a) ->
        ArquivoRegistros.buscar_por_posicao a p = None
        /\ ArquivoRegistros.deletar m a p = m).
Proof.
  unfold ArquivoRegistros.buscar_por_posicao, ArquivoRegistros.deletar,
    ArquivoRegistros.len.
  split.
  - intros [H0 H1].
    destruct (lookup_lt_is_Some_2 (ArquivoRegistros.registros a)
                (Z.to_nat p) ltac:(lia)) as [r Hr].
    exists r. split; [exact Hr|].
    rewrite (proj2 (Z.leb_le _ _) H0), (proj2 (Z.ltb_lt _ _) H1).
    exact Hr.
  - intros H.
    destruct (0 <=? p) eqn:E0; [|now split].
    destruct (p <? Z.of_nat (length (ArquivoRegistros.registros a))) eqn:E1;
      [|now split].
    apply Z.leb_le in E0. apply Z.ltb_lt in E1. lia.
Qed.

(** C8: for every state and every integer [p], [buscar_por_posicao]
    returns the record stored at [p] when [0 <= p < len] and [None]
    otherwise; [deletar] at an out-of-range [p] changes neither the file
    nor any record. *)
Theorem C8_posicoes_do_arquivo :
  forall (s : Estado) (p : Z),
    (0 <= p < Z.of_nat (length (registros_de s)) ->
       exists r, registros_de s !! Z.to_nat p = Some r
                 /\ ArquivoRegistros.buscar_por_posicao
                      (SistemaGerenciadorBD.arquivo (sgbd s)) p = Some r)
    /\ (~ (0 <= p < Z.of_nat (length (registros_de s))) ->
          ArquivoRegistros.buscar_por_posicao
            (SistemaGerenciadorBD.arquivo (sgbd s)) p = None
          /\ executa (OpArquivoDeletar p) s = s).
Proof.
  intros s p.
  destruct (posicoes_do_arquivo (mem s)
              (SistemaGerenciadorBD.arquivo (sgbd s)) p) as [Hin Hout].
  split; [exact Hin|].
  intros H. destruct (Hout H) as [Hb Hd]. split; [exact Hb|].
  cbn [executa]. rewrite Hd. now destruct s.
Qed.

Lemma C8_posicoes_do_arquivo_witness :
  let s := executa_todas (insere "A" 0%nat ++ insere "B" 1%nat) inicial in
  (exists r, registros_de s !! Z.to_nat 1 = Some r
     /\ ArquivoRegistros.buscar_por_posicao
          (SistemaGerenciadorBD.arquivo (sgbd s)) 1 = Some r)
  /\ (ArquivoRegistros.buscar_por_posicao
        (SistemaGerenciadorBD.arquivo (sgbd s)) (-1) = None
      /\ executa (OpArquivoDeletar (-1)) s = s)
  /\ (ArquivoRegistros.buscar_por_posicao
        (SistemaGerenciadorBD.arquivo (sgbd s)) 2 = None
      /\ executa (OpArquivoDeletar 2) s = s).
Proof.
  intros s. repeat apply conj.
  - apply (proj1 (C8_posicoes_do_arquivo s 1)). vm_compute.
    split; [discriminate | reflexivity].
  - apply (proj2 (C8_posicoes_do_arquivo s (-1))). vm_compute.
    intros [H _]. now apply H.
  - apply (proj2 (C8_posicoes_do_arquivo s (-1))). vm_compute.
    intros [H _]. now apply H.
  - apply (proj2 (C8_posicoes_do_arquivo s 2)). vm_compute.
    intros [_ H]. discriminate H.
  - apply (proj2 (C8_posicoes_do_arquivo s 2)). vm_compute.
    intros [_ H]. discriminate H.
Defined.

(** ** The file and the index stay aligned *)

Lemma coerente_inicial : coerente inicial.
Proof. split; simpl; intros; contradiction. Qed.

Lemma length_deletar (m : memoria) (a : ArquivoRegistros.t) (p : Z) :
  length (ArquivoRegistros.deletar m a p) = length m.
Proof.
  unfold ArquivoRegistros.deletar, zerar_em.
  destruct ((0 <=? p) && (p <? ArquivoRegistros.len a)); [|reflexivity].
  destruct (ArquivoRegistros.registros a !! Z.to_nat p); [|reflexivity].
  apply length_alter.
Qed.

Lemma coerente_novo_Registro (s : Estado) (c n : string) (d : datetime)
    (del : bool) :
  coerente s ->
  coerente {| mem := fst (novo_Registro (mem s) c n d del); sgbd := sgbd s |}.
Proof.
  intros [H1 H2]. split; [exact H1|].
  intros r Hr. specialize (H2 r Hr). simpl in *.
  rewrite length_app. lia.
Qed.

Lemma coerente_inserir_registro (s : Estado) (r : ref) :
  coerente s -> (r < length (mem s))%nat ->
  coerente {| mem := mem s;
              sgbd := fst (SistemaGerenciadorBD.inserir_registro
                             (mem s) (sgbd s) r) |}.
Proof.
  intros [H1 H2] Hr.
  unfold SistemaGerenciadorBD.inserir_registro, ArquivoRegistros.inserir,
    ArquivoRegistros.len.
  cbn [ArquivoRegistros.registros].
  set (pos := Z.of_nat
                (length (ArquivoRegistros.registros
                           (SistemaGerenciadorBD.arquivo (sgbd s)) ++ [r]))
              - 1).
  pose proof (entradas_inserir (mem s)
                (SistemaGerenciadorBD.indice (sgbd s)) r pos) as Hin.
  destruct (ArvoreBinariaBusca.inserir (mem s)
              (SistemaGerenciadorBD.indice (sgbd s)) r pos) as [ind out].
  unfold coerente, raiz_de, registros_de in *. simpl in *.
  assert (Z.to_nat pos
          = length (ArquivoRegistros.registros
                      (SistemaGerenciadorBD.arquivo (sgbd s)))) as Hpos.
  { unfold pos. rewrite length_app. simpl. lia. }
  split.
  - intros r' p' Hx. destruct (Hin _ Hx) as [E|Hold].
    + injection E as -> ->. split.
      * unfold pos. rewrite length_app. simpl. lia.
      * rewrite Hpos. rewrite lookup_app_r by lia.
        now rewrite Nat.sub_diag.
    + destruct (H1 _ _ Hold) as [Hp Hl]. split; [exact Hp|].
      now apply lookup_app_l_Some.
  - intros r' Hr'. apply in_app_iff in Hr'. destruct Hr' as [Hr'|[<-|[]]];
      auto.
Qed.

Lemma coerente_remover_registro (s : Estado) (k : string) :
  coerente s ->
  coerente
    {| mem := fst (fst (SistemaGerenciadorBD.remover_registro_por_cpf
                          (mem s) (sgbd s) k));
       sgbd := snd (fst (SistemaGerenciadorBD.remover_registro_por_cpf
                           (mem s) (sgbd s) k)) |}.
Proof.
  intros [H1 H2].
  unfold SistemaGerenciadorBD.remover_registro_por_cpf.
  destruct (ArvoreBinariaBusca.buscar (mem s)
              (SistemaGerenciadorBD.indice (sgbd s)) k)
    as [|rn pn en dn]; simpl.
  - destruct s as [m g]. split; assumption.
  - unfold coerente, raiz_de, registros_de in *. simpl in *. split.
    + intros r p Hx. apply entradas__remover in Hx. now apply H1.
    + intros r Hr. rewrite length_deletar. now apply H2.
Qed.

Lemma coerente_executa (op : Operacao) (s : Estado) :
  pelo_gerenciador op = true -> coerente s -> coerente (executa op s).
Proof.
  intros Hop Hs. destruct op; simpl in Hop; try discriminate;
    try exact Hs.
  - now apply coerente_novo_Registro.
  - cbn [executa]. unfold ref_valida.
    destruct (Nat.ltb_spec r (length (mem s))); [|exact Hs].
    now apply coerente_inserir_registro.
  - cbn [executa].
    pose proof (coerente_remover_registro s k Hs) as H.
    destruct (SistemaGerenciadorBD.remover_registro_por_cpf
                (mem s) (sgbd s) k) as [[m' g'] out]. exact H.
Qed.

Lemma coerente_executa_todas (ops : list Operacao) :
  forall s : Estado,
    forallb pelo_gerenciador ops = true -> coerente s ->
    coerente (executa_todas ops s).
Proof.
  induction ops as [|op ops IH]; intros s Hops Hs; [exact Hs|].
  simpl in Hops. apply andb_true_iff in Hops as [Hop Hops].
  simpl. apply IH; [exact Hops|]. now apply coerente_executa.
Qed.


(** X23: in every state reached through the table manager, when the
    index search finds key [k], [inserir_registro] of a record with that
    key still appends the record to the file, which grows by one slot,
    and leaves the index as it was: no index node points at the new
    slot. *)
Theorem X23_chave_encontrada_deixa_posicao_orfa :
  forall (ops : list Operacao) (r : ref),
    forallb pelo_gerenciador ops = true ->
    (r < length (mem (executa_todas ops inicial)))%nat ->
    presente (mem (executa_todas ops inicial))
      (raiz_de (executa_todas ops inicial))
      (cpf_de (mem (executa_todas ops inicial)) r) ->
    let s := executa_todas ops inicial in
    let res := SistemaGerenciadorBD.inserir_registro (mem s) (sgbd s) r in
    ArquivoRegistros.registros (SistemaGerenciadorBD.arquivo (fst res))
    = registros_de s ++ [r]
    /\ length (ArquivoRegistros.registros
                 (SistemaGerenciadorBD.arquivo (fst res)))
       = S (length (registros_de s))
    /\ SistemaGerenciadorBD.indice (fst res)
       = SistemaGerenciadorBD.indice (sgbd s)
    /\ snd res = [ChaveJaExiste (cpf_de (mem s) r)]
    /\ forall r' p',
         In (r', p') (entradas (ArvoreBinariaBusca.raiz
                                  (SistemaGerenciadorBD.indice (fst res)))) ->
         p' <> Z.of_nat (length (registros_de s)).
Proof.
  intros ops r Hops Hr Hk s res.
  pose proof (coerente_executa_todas ops inicial Hops coerente_inicial)
    as [H1 _].
  fold s in H1, Hk, Hr. subst res.
  unfold SistemaGerenciadorBD.inserir_registro, ArquivoRegistros.inserir.
  cbn [ArquivoRegistros.registros].
  unfold raiz_de in Hk.
  rewrite (inserir_presente _ _ r _ Hk). cbn [fst snd].
  cbn [SistemaGerenciadorBD.arquivo SistemaGerenciadorBD.indice
       ArquivoRegistros.registros].
  repeat split.
  - rewrite length_app. simpl. unfold registros_de. lia.
  - intros r' p' Hx E. destruct (H1 r' p' Hx) as [Hp Hl].
    apply lookup_lt_Some in Hl. lia.
Qed.

Lemma X23_chave_encontrada_deixa_posicao_orfa_witness :
  let s := executa_todas
             (insere "A" 0%nat ++ [OpNovoRegistro "A" "Ana" uma_data false])
             inicial in
  let res := SistemaGerenciadorBD.inserir_registro (mem s) (sgbd s) 1%nat in
  ArquivoRegistros.registros (SistemaGerenciadorBD.arquivo (fst res))
  = registros_de s ++ [1%nat]
  /\ length (ArquivoRegistros.registros
               (SistemaGerenciadorBD.arquivo (fst res)))
     = S (length (registros_de s))
  /\ SistemaGerenciadorBD.indice (fst res)
     = SistemaGerenciadorBD.indice (sgbd s)
  /\ snd res = [ChaveJaExiste (cpf_de (mem s) 1%nat)]
  /\ forall r' p',
       In (r', p') (entradas (ArvoreBinariaBusca.raiz
                                (SistemaGerenciadorBD.indice (fst res)))) ->
       p' <> Z.of_nat (length (registros_de s)).
Proof.
  apply (X23_chave_encontrada_deixa_posicao_orfa
           (insere "A" 0%nat ++ [OpNovoRegistro "A" "Ana" uma_data false])
           1%nat).
  - reflexivity.
  - vm_compute. lia.
  - unfold presente. vm_compute. discriminate.
Defined.

(** ** Traversals *)

(** The breadth-first loop is given as many turns as the tree has nodes;
    that is enough to empty the queue: every node is reported. *)
Lemma tamanho_fila_app (f1 f2 : list No) :
  tamanho_fila (f1 ++ f2) = (tamanho_fila f1 + tamanho_fila f2)%nat.
Proof.
  induction f1 as [|no f1 IH]; simpl; [reflexivity|]. rewrite IH. lia.
Qed.

Lemma length_largura_laco (voltas : nat) :
  forall (fila : list No) (resultado : list ref),
    Forall (fun no => no <> Nulo) fila ->
    (tamanho_fila fila <= voltas)%nat ->
    length (ArvoreBinariaBusca.largura_laco voltas fila resultado)
    = (length resultado + tamanho_fila fila)%nat.
Proof.
  induction voltas as [|voltas IH]; intros fila resultado Hf Hv.
  - destruct fila as [|[|r p e d] fila0]; simpl in *; lia.
  - destruct fila as [|[|r p e d] fila0]; simpl in *; try lia.
    + inversion Hf; congruence.
    + inversion Hf as [|? ? _ Hf0]; subst.
      rewrite IH.
      * rewrite length_app. simpl.
        destruct e, d; rewrite ?tamanho_fila_app; simpl; lia.
      * destruct e, d; rewrite ?Forall_app; repeat split; auto;
          repeat constructor; discriminate.
      * destruct e, d; rewrite ?tamanho_fila_app; simpl in *; lia.
Qed.

Lemma length_percurso_largura (a : ArvoreBinariaBusca.t) :
  length (ArvoreBinariaBusca.percurso_largura a)
  = tamanho (ArvoreBinariaBusca.raiz a).
Proof.
  unfold ArvoreBinariaBusca.percurso_largura.
  destruct (ArvoreBinariaBusca.raiz a) as [|r p e d] eqn:E; [reflexivity|].
  rewrite length_largura_laco.
  - simpl. lia.
  - repeat constructor. discriminate.
  - simpl. lia.
Qed.

(** C7: inserting records with keys "B", "A", "D", "C", in that order,
    into an empty index gives the in-order keys A B C D, the pre-order
    keys B A D C and the breadth-first keys B A D C. *)
Theorem C7_percursos_B_A_D_C :
  forall (m : memoria) (rB rA rD rC : ref) (pB pA pD pC : Z),
    cpf_de m rB = "B" -> cpf_de m rA = "A" ->
    cpf_de m rD = "D" -> cpf_de m rC = "C" ->
    let a1 := fst (ArvoreBinariaBusca.inserir m ArvoreBinariaBusca.nova rB pB) in
    let a2 := fst (ArvoreBinariaBusca.inserir m a1 rA pA) in
    let a3 := fst (ArvoreBinariaBusca.inserir m a2 rD pD) in
    let a4 := fst (ArvoreBinariaBusca.inserir m a3 rC pC) in
    chaves m (ArvoreBinariaBusca.em_ordem a4) = ["A"; "B"; "C"; "D"]
    /\ chaves m (ArvoreBinariaBusca.pre_ordem a4) = ["B"; "A"; "D"; "C"]
    /\ chaves m (ArvoreBinariaBusca.percurso_largura a4)
       = ["B"; "A"; "D"; "C"].
Proof.
  intros m rB rA rD rC pB pA pD pC HB HA HD HC.
  unfold ArvoreBinariaBusca.inserir, ArvoreBinariaBusca.nova.
  cbn [ArvoreBinariaBusca.raiz fst ArvoreBinariaBusca._inserir].
  unfold Registro_gt, Registro_lt. rewrite HB, HA.
  change (String.ltb "A" "B") with true.
  cbn [ArvoreBinariaBusca.raiz fst ArvoreBinariaBusca._inserir].
  unfold Registro_gt, Registro_lt. rewrite HB, HD.
  change (String.ltb "D" "B") with false.
  change (String.ltb "B" "D") with true.
  cbn [ArvoreBinariaBusca.raiz fst ArvoreBinariaBusca._inserir].
  unfold Registro_gt, Registro_lt. rewrite HB, HD, HC.
  change (String.ltb "C" "B") with false.
  change (String.ltb "B" "C") with true.
  change (String.ltb "C" "D") with true.
  cbn. rewrite HB, HA, HD, HC. repeat split; reflexivity.
Qed.

Lemma C7_percursos_B_A_D_C_witness :
  let m := mem (executa_todas
                  (insere "B" 0%nat ++ insere "A" 1%nat
                   ++ insere "D" 2%nat ++ insere "C" 3%nat) inicial) in
  let a1 := fst (ArvoreBinariaBusca.inserir m ArvoreBinariaBusca.nova
                   0%nat 0) in
  let a2 := fst (ArvoreBinariaBusca.inserir m a1 1%nat 1) in
  let a3 := fst (ArvoreBinariaBusca.inserir m a2 2%nat 2) in
  let a4 := fst (ArvoreBinariaBusca.inserir m a3 3%nat 3) in
  chaves m (ArvoreBinariaBusca.em_ordem a4) = ["A"; "B"; "C"; "D"]
  /\ chaves m (ArvoreBinariaBusca.pre_ordem a4) = ["B"; "A"; "D"; "C"]
  /\ chaves m (ArvoreBinariaBusca.percurso_largura a4)
     = ["B"; "A"; "D"; "C"].
Proof.
  intros m.
  apply (C7_percursos_B_A_D_C m 0%nat 1%nat 2%nat 3%nat 0 1 2 3);
    reflexivity.
Defined.

(** The same session through the table manager builds that very index. *)
Lemma sessao_B_A_D_C_pelo_gerenciador :
  let s := executa_todas
             (insere "B" 0%nat ++ insere "A" 1%nat
              ++ insere "D" 2%nat ++ insere "C" 3%nat) inicial in
  chaves (mem s)
    (ArvoreBinariaBusca.em_ordem (SistemaGerenciadorBD.indice (sgbd s)))
  = ["A"; "B"; "C"; "D"]
  /\ chaves (mem s)
       (ArvoreBinariaBusca.pre_ordem (SistemaGerenciadorBD.indice (sgbd s)))
     = ["B"; "A"; "D"; "C"]
  /\ chaves (mem s)
       (ArvoreBinariaBusca.percurso_largura
          (SistemaGerenciadorBD.indice (sgbd s)))
     = ["B"; "A"; "D"; "C"].
Proof. vm_compute. repeat split; reflexivity. Qed.

(** ** Deleting through the table manager *)

(** The file slot and the index node share one record object, and
    [remover_registro_por_cpf] zeroes that object before it asks the
    index to remove the key.  The sessions below run the code. *)

(** C1: after inserting key "A" and deleting it, the file slot 0 is
    zeroed, yet the index still holds its node, pointing at that slot. *)
Theorem C1_no_permanece_apos_remocao :
  let antes := executa_todas (insere "A" 0%nat) inicial in
  let s := executa (OpRemoverRegistroPorCpf "A") antes in
  presente (mem antes) (raiz_de antes) "A"
  /\ posicao_zerada s 0
  /\ raiz_de s = Nodo 0%nat 0 Nulo Nulo
  /\ raiz_de s = raiz_de antes.
Proof.
  cbv zeta. unfold presente, posicao_zerada. vm_compute.
  repeat split; try reflexivity. discriminate.
Qed.

(** C2: after inserting "B", "A", "C" and deleting "B", the record with
    key "A" is still in the file, untouched and not deleted, but
    [buscar_registro_por_cpf] no longer finds it. *)
Theorem C2_busca_perde_registro_vivo :
  let antes := executa_todas
                 (insere "B" 0%nat ++ insere "A" 1%nat ++ insere "C" 2%nat)
                 inicial in
  let s := executa (OpRemoverRegistroPorCpf "B") antes in
  buscar_em antes "A" = Some 1%nat
  /\ registro_na_posicao s 1
     = Some {| cpf := "A"; nome := "Maria";
               data_nascimento := Some uma_data; deletado := false |}
  /\ buscar_em s "A" = None.
Proof. vm_compute. repeat split; reflexivity. Qed.

(** C3: after inserting "A", "B", "C" and deleting "A", the in-order
    traversal still has three records, the first with the empty key;
    the lookup of "A" returns nothing. *)
Theorem C3_em_ordem_apos_remover_A :
  let s := executa_todas
             (insere "A" 0%nat ++ insere "B" 1%nat ++ insere "C" 2%nat
              ++ [OpRemoverRegistroPorCpf "A"]) inicial in
  chaves (mem s)
    (ArvoreBinariaBusca.em_ordem (SistemaGerenciadorBD.indice (sgbd s)))
  = [""; "B"; "C"]
  /\ chaves (mem s)
       (ArvoreBinariaBusca.em_ordem (SistemaGerenciadorBD.indice (sgbd s)))
     <> ["B"; "C"]
  /\ buscar_em s "A" = None.
Proof. vm_compute. repeat split; try reflexivity. discriminate. Qed.

(** C4: after inserting "A", "B" and deleting "B", the in-order keys are
    "A" followed by the empty key, which is not ascending. *)
Theorem C4_em_ordem_fora_de_ordem :
  let s := executa_todas
             (insere "A" 0%nat ++ insere "B" 1%nat
              ++ [OpRemoverRegistroPorCpf "B"]) inicial in
  chaves (mem s)
    (ArvoreBinariaBusca.em_ordem (SistemaGerenciadorBD.indice (sgbd s)))
  = ["A"; ""]
  /\ ~ estritamente_crescente
         (chaves (mem s)
            (ArvoreBinariaBusca.em_ordem
               (SistemaGerenciadorBD.indice (sgbd s)))).
Proof.
  cbv zeta. split; [vm_compute; reflexivity|].
  change (~ estritamente_crescente ["A"; ""]).
  intros H. inversion H as [|? ? _ HF]; subst.
  inversion HF as [|? ? Hlt _]; subst. discriminate Hlt.
Qed.

(** C5: after inserting "B", "A" and deleting "B" the index still has
    the node of "A", whose record is intact, but the node of "B" stays
    above it with the empty key.  The index then accepts a second record
    with key "A": [inserir] reports nothing and the tree grows from two
    nodes to three, holding key "A" twice. *)
Theorem C5_chave_existente_e_aceita :
  let s := executa_todas
             (insere "B" 0%nat ++ insere "A" 1%nat
              ++ [OpRemoverRegistroPorCpf "B";
                  OpNovoRegistro "A" "Ana" uma_data false]) inicial in
  let a := SistemaGerenciadorBD.indice (sgbd s) in
  let res := ArvoreBinariaBusca.inserir (mem s) a 2%nat 2 in
  cpf_de (mem s) 2%nat = "A"
  /\ In (1%nat, 1) (entradas (ArvoreBinariaBusca.raiz a))
  /\ cpf_de (mem s) 1%nat = "A"
  /\ chaves (mem s) (ArvoreBinariaBusca.em_ordem a) = ["A"; ""]
  /\ snd res = []
  /\ fst res <> a
  /\ tamanho (ArvoreBinariaBusca.raiz a) = 2%nat
  /\ tamanho (ArvoreBinariaBusca.raiz (fst res)) = 3%nat
  /\ chaves (mem s) (ArvoreBinariaBusca.em_ordem (fst res))
     = ["A"; ""; "A"].
Proof.
  cbv zeta.
  split; [vm_compute; reflexivity|].
  split; [vm_compute; tauto|].
  split; [vm_compute; reflexivity|].
  split; [vm_compute; reflexivity|].
  split; [vm_compute; reflexivity|].
  split; [vm_compute; discriminate|].
  split; [vm_compute; reflexivity|].
  split; vm_compute; reflexivity.
Qed.

(** C6: in that same state key "A" is indexed -- node (1, 1) holds it
    and slot 1 has its record, not deleted -- yet [inserir_registro] of
    another record with key "A" prints nothing and adds an index node
    for the new slot 2: the index changes and the slot is not orphaned. *)
Theorem C6_duplicata_indexada_apos_remocao :
  let s := executa_todas
             (insere "B" 0%nat ++ insere "A" 1%nat
              ++ [OpRemoverRegistroPorCpf "B";
                  OpNovoRegistro "A" "Ana" uma_data false]) inicial in
  let res := SistemaGerenciadorBD.inserir_registro (mem s) (sgbd s) 2%nat in
  cpf_de (mem s) 2%nat = "A"
  /\ In (1%nat, 1) (entradas (raiz_de s))
  /\ registro_na_posicao s 1
     = Some {| cpf := "A"; nome := "Maria";
               data_nascimento := Some uma_data; deletado := false |}
  /\ ArquivoRegistros.registros (SistemaGerenciadorBD.arquivo (fst res))
     = registros_de s ++ [2%nat]
  /\ snd res = []
  /\ SistemaGerenciadorBD.indice (fst res)
     <> SistemaGerenciadorBD.indice (sgbd s)
  /\ tamanho (raiz_de s) = 2%nat
  /\ tamanho (ArvoreBinariaBusca.raiz
                (SistemaGerenciadorBD.indice (fst res))) = 3%nat
  /\ In (2%nat, Z.of_nat (length (registros_de s)))
        (entradas (ArvoreBinariaBusca.raiz
                     (SistemaGerenciadorBD.indice (fst res)))).
Proof.
  cbv zeta.
  split; [vm_compute; reflexivity|].
  split; [vm_compute; tauto|].
  split; [vm_compute; reflexivity|].
  split; [vm_compute; reflexivity|].
  split; [vm_compute; reflexivity|].
  split; [vm_compute; discriminate|].
  split; [vm_compute; reflexivity|].
  split; [vm_compute; reflexivity|].
  vm_compute; tauto.
Qed.

(** ** A zeroed slot stays zeroed *)

Lemma zerar_em_preserva_zerado (m : memoria) (r j : ref) :
  m !! j = Some registro_zerado ->
  zerar_em m r !! j = Some registro_zerado.
Proof.
  intros H. unfold zerar_em. destruct (decide (r = j)) as [->|Hne].
  - rewrite list_lookup_alter_eq, H. reflexivity.
  - now rewrite list_lookup_alter_ne.
Qed.

Lemma deletar_preserva_zerado (m : memoria) (a : ArquivoRegistros.t)
    (p : Z) (j : ref) :
  m !! j = Some registro_zerado ->
  ArquivoRegistros.deletar m a p !! j = Some registro_zerado.
Proof.
  intros H. unfold ArquivoRegistros.deletar.
  destruct ((0 <=? p) && (p <? ArquivoRegistros.len a)); [|exact H].
  destruct (ArquivoRegistros.registros a !! Z.to_nat p); [|exact H].
  now apply zerar_em_preserva_zerado.
Qed.

(** No operation overwrites or moves a slot of the file. *)
Lemma executa_preserva_posicoes (op : Operacao) (s : Estado) (p : nat)
    (r : ref) :
  registros_de s !! p = Some r -> registros_de (executa op s) !! p = Some r.
Proof.
  intros H. unfold registros_de in *.
  destruct op; cbn [executa]; try exact H.
  - destruct (ref_valida (mem s) r0); [|exact H].
    cbn. now apply lookup_app_l_Some.
  - destruct (ref_valida (mem s) r0); exact H.
  - destruct (ref_valida (mem s) r0); [|exact H].
    unfold SistemaGerenciadorBD.inserir_registro, ArquivoRegistros.inserir.
    destruct (ArvoreBinariaBusca.inserir _ _ _ _) as [ind out]. cbn.
    now apply lookup_app_l_Some.
  - unfold SistemaGerenciadorBD.remover_registro_por_cpf.
    destruct (ArvoreBinariaBusca.buscar _ _ _); exact H.
Qed.

(** The only write to a record object is [zerar]. *)
Lemma executa_preserva_zerado (op : Operacao) (s : Estado) (j : ref) :
  mem s !! j = Some registro_zerado ->
  mem (executa op s) !! j = Some registro_zerado.
Proof.
  intros H.
  destruct op; cbn [executa]; try exact H.
  - cbn. now apply lookup_app_l_Some.
  - destruct (ref_valida (mem s) r); exact H.
  - cbn. now apply deletar_preserva_zerado.
  - destruct (ref_valida (mem s) r); exact H.
  - destruct (ref_valida (mem s) r); exact H.
  - unfold SistemaGerenciadorBD.remover_registro_por_cpf.
    destruct (ArvoreBinariaBusca.buscar _ _ _); [exact H|].
    cbn. now apply deletar_preserva_zerado.
Qed.

Lemma executa_preserva_posicao_zerada (op : Operacao) (s : Estado)
    (p : nat) :
  posicao_zerada s p -> posicao_zerada (executa op s) p.
Proof.
  unfold posicao_zerada, registro_na_posicao. intros H.
  destruct (registros_de s !! p) as [r|] eqn:E; [|discriminate].
  rewrite (executa_preserva_posicoes op s p r E).
  now apply executa_preserva_zerado.
Qed.

(** [deletar] on a valid position zeroes the slot. *)
Lemma deletar_zera_posicao (s : Estado) (p : nat) (r : ref) :
  registros_de s !! p = Some r -> (r < length (mem s))%nat ->
  posicao_zerada (executa (OpArquivoDeletar (Z.of_nat p)) s) p.
Proof.
  intros Hp Hr. unfold posicao_zerada, registro_na_posicao.
  rewrite (executa_preserva_posicoes _ s p r Hp).
  cbn [executa mem]. unfold ArquivoRegistros.deletar, ArquivoRegistros.len.
  unfold registros_de in Hp. pose proof (lookup_lt_Some _ _ _ Hp) as Hlt.
  rewrite (proj2 (Z.leb_le 0 (Z.of_nat p))) by lia.
  rewrite (proj2 (Z.ltb_lt (Z.of_nat p) _)) by lia.
  rewrite Nat2Z.id, Hp. unfold zerar_em. cbn [andb].
  rewrite list_lookup_alter_eq.
  destruct (lookup_lt_is_Some_2 (mem s) r Hr) as [x ->]. reflexivity.
Qed.

(** C9: once the slot at position [p] holds a zeroed record, it still
    does after any sequence of operations on the file, the index and the
    table manager: key, name and date stay cleared and the flag stays
    set. *)
Theorem C9_zerado_e_irreversivel :
  forall (ops : list Operacao) (s : Estado) (p : nat),
    posicao_zerada s p ->
    registro_na_posicao (executa_todas ops s) p
    = Some {| cpf := ""; nome := ""; data_nascimento := None;
              deletado := true |}.
Proof.
  induction ops as [|op ops IH]; intros s p H; [exact H|].
  simpl. apply IH. now apply executa_preserva_posicao_zerada.
Qed.

Lemma C9_zerado_e_irreversivel_witness :
  registro_na_posicao
    (executa_todas
       (insere "A" 2%nat ++ [OpIndiceRemover ""; OpArquivoInserir 0%nat;
                             OpRemoverRegistroPorCpf "B"])
       (executa_todas
          (insere "A" 0%nat ++ insere "B" 1%nat
           ++ [OpRemoverRegistroPorCpf "A"]) inicial))
    0
  = Some {| cpf := ""; nome := ""; data_nascimento := None;
            deletado := true |}.
Proof.
  apply (C9_zerado_e_irreversivel
           (insere "A" 2%nat ++ [OpIndiceRemover ""; OpArquivoInserir 0%nat;
                                 OpRemoverRegistroPorCpf "B"])
           (executa_todas
              (insere "A" 0%nat ++ insere "B" 1%nat
               ++ [OpRemoverRegistroPorCpf "A"]) inicial)
           0%nat).
  reflexivity.
Defined.


(** ** What deletion leaves in the index *)

Section RemocaoAposZerar.

Variable m : memoria.

Lemma cpf_de_zerar_em_eq (r : ref) :
  (r < length m)%nat -> cpf_de (zerar_em m r) r = "".
Proof.
  intros Hr. unfold cpf_de, zerar_em. rewrite list_lookup_alter_eq.
  destruct (lookup_lt_is_Some_2 m r Hr) as [x ->]. reflexivity.
Qed.

Lemma cpf_de_zerar_em_ne (r j : ref) :
  r <> j -> cpf_de (zerar_em m r) j = cpf_de m j.
Proof.
  intros Hne. unfold cpf_de, zerar_em. now rewrite list_lookup_alter_ne.
Qed.

Lemma cpf_de_zerar_em (r j : ref) :
  cpf_de (zerar_em m r) j = cpf_de m j \/ cpf_de (zerar_em m r) j = "".
Proof.
  destruct (decide (r = j)) as [->|Hne].
  - unfold cpf_de, zerar_em. rewrite list_lookup_alter_eq.
    destruct (m !! j); simpl; auto.
  - left. now apply cpf_de_zerar_em_ne.
Qed.

(** The node returned by the search holds the key and is in the tree. *)
Lemma _buscar_chave (no : No) (k : string) (rn : ref) (pn : Z)
    (en dn : No) :
  ArvoreBinariaBusca._buscar m no k = Nodo rn pn en dn ->
  cpf_de m rn = k /\ In (rn, pn) (entradas no).
Proof.
  induction no as [|r0 p0 e IHe d IHd]; simpl; [discriminate|].
  destruct (String.eqb_spec k (cpf_de m r0)) as [E|NE].
  - intros [= -> -> _ _]. split; [now symmetry|].
    apply in_app_iff. right. now left.
  - destruct (String.ltb k (cpf_de m r0)); intros H.
    + destruct (IHe H) as [Hk Hin]. split; [exact Hk|].
      apply in_app_iff. now left.
    + destruct (IHd H) as [Hk Hin]. split; [exact Hk|].
      apply in_app_iff. right. now right.
Qed.

End RemocaoAposZerar.

(** Removing a key that the search does not find changes nothing. *)
Lemma _remover_ausente (m : memoria) (k : string) (no : No) :
  ArvoreBinariaBusca._buscar m no k = Nulo ->
  ArvoreBinariaBusca._remover m no k = no.
Proof.
  induction no as [|r0 p0 e IHe d IHd]; simpl; [reflexivity|].
  destruct (String.eqb_spec k (cpf_de m r0)) as [E|NE]; [discriminate|].
  destruct (String.ltb k (cpf_de m r0)) eqn:L; intros H.
  - now rewrite IHe.
  - destruct (String.ltb (cpf_de m r0) k) eqn:G.
    + now rewrite IHd.
    + contradiction NE. now apply ltb_tricotomia.
Qed.

(** Below keys that are all empty or greater than [k], the search for a
    non-empty [k] finds nothing. *)
Lemma _buscar_entre_maiores (m : memoria) (k : string) (no : No) :
  k <> "" ->
  Forall (fun x : ref * Z =>
            cpf_de m (fst x) = ""
            \/ String.ltb k (cpf_de m (fst x)) = true) (entradas no) ->
  ArvoreBinariaBusca._buscar m no k = Nulo.
Proof.
  intros Hk. induction no as [|r0 p0 e IHe d IHd]; simpl; [reflexivity|].
  intros HF. apply Forall_app in HF as [HFe HFd].
  apply Forall_cons in HFd as [H0 HFd]. simpl in H0.
  destruct (String.eqb_spec k (cpf_de m r0)) as [E|NE].
  - destruct H0 as [H0|H0]; [congruence|].
    rewrite <- E, ltb_irrefl in H0. discriminate.
  - destruct H0 as [H0|H0].
    + rewrite H0, ltb_vazia_r. now apply IHd.
    + rewrite H0. now apply IHe.
Qed.

(** Zeroing the record of the node that holds [k] hides the whole path:
    the search now passes the node to its right, where nothing holds
    [k]. *)
Lemma _buscar_apos_zerar (m : memoria) (k : string) (rn : ref) (pn : Z)
    (en dn : No) (no : No) :
  k <> "" -> (rn < length m)%nat ->
  ordem_a_direita m no ->
  ArvoreBinariaBusca._buscar m no k = Nodo rn pn en dn ->
  ArvoreBinariaBusca._buscar (zerar_em m rn) no k = Nulo.
Proof.
  intros Hk Hrn. induction no as [|r0 p0 e IHe d IHd];
    [discriminate|].
  intros [Hd [Hoe Hod]] H.
  pose proof (_buscar_chave m _ _ _ _ _ _ H) as [Hkn _].
  simpl in H |- *.
  destruct (String.eqb_spec k (cpf_de m r0)) as [E|NE].
  - injection H as -> -> _ _.
    rewrite cpf_de_zerar_em_eq by exact Hrn.
    rewrite (proj2 (String.eqb_neq k "") Hk), ltb_vazia_r.
    apply _buscar_entre_maiores; [exact Hk|].
    rewrite <- E in Hd. specialize (Hd Hk).
    eapply Forall_impl; [exact Hd|].
    intros [x px] [Hx|Hx]; simpl in *.
    + left. destruct (cpf_de_zerar_em m rn x) as [->| ->]; auto.
    + destruct (cpf_de_zerar_em m rn x) as [->| ->]; auto.
  - assert (rn <> r0) as Hne by (intros ->; congruence).
    rewrite (cpf_de_zerar_em_ne m rn r0 Hne).
    destruct (String.eqb_spec k (cpf_de m r0)) as [E'|_]; [congruence|].
    destruct (String.ltb k (cpf_de m r0)); auto.
Qed.

(** Keys only change by becoming empty, which keeps [ordem_a_direita]. *)
Lemma ordem_a_direita_mono (m m' : memoria) (no : No) :
  (forall r p, In (r, p) (entradas no) ->
     cpf_de m' r = cpf_de m r \/ cpf_de m' r = "") ->
  ordem_a_direita m no -> ordem_a_direita m' no.
Proof.
  induction no as [|r0 p0 e IHe d IHd]; [trivial|].
  intros Hm [Hd [Hoe Hod]]. cbn [entradas] in Hm. cbn [ordem_a_direita].
  split; [|split].
  - intros Hk0.
    destruct (Hm r0 p0 ltac:(apply in_app_iff; right; now left))
      as [E0|E0]; [|congruence].
    rewrite E0 in Hk0 |- *. specialize (Hd Hk0).
    rewrite List.Forall_forall in Hd |- *. intros [x px] Hx.
    specialize (Hd _ Hx). simpl in *.
    destruct (Hm x px ltac:(apply in_app_iff; right; now right))
      as [Ex|Ex]; rewrite Ex; auto.
  - apply IHe; [|exact Hoe]. intros r p Hin. apply (Hm r p).
    apply in_app_iff. now left.
  - apply IHd; [|exact Hod]. intros r p Hin. apply (Hm r p).
    apply in_app_iff. right. now right.
Qed.

Lemma ordem_a_direita__inserir (m : memoria) (r : ref) (p : Z) (no : No) :
  ordem_a_direita m no ->
  ordem_a_direita m (fst (ArvoreBinariaBusca._inserir m no r p)).
Proof.
  induction no as [|r0 p0 e IHe d IHd]; [trivial|].
  intros [Hd [Hoe Hod]]. cbn [ArvoreBinariaBusca._inserir].
  unfold Registro_gt, Registro_lt.
  destruct (String.ltb (cpf_de m r) (cpf_de m r0)) eqn:L.
  - destruct e as [|re pe ee de].
    + cbn. repeat split; auto.
    + specialize (IHe Hoe).
      destruct (ArvoreBinariaBusca._inserir m (Nodo re pe ee de) r p)
        as [e' out].
      cbn [fst ordem_a_direita] in *. repeat split; auto.
  - destruct (String.ltb (cpf_de m r0) (cpf_de m r)) eqn:G.
    + destruct d as [|rd pd ed dd].
      * cbn. repeat split; auto.
      * specialize (IHd Hod).
        pose proof (entradas__inserir m r p (Nodo rd pd ed dd)) as Hin.
        destruct (ArvoreBinariaBusca._inserir m (Nodo rd pd ed dd) r p)
          as [d' out].
        cbn [fst] in *. cbn [ordem_a_direita]. repeat split; auto.
        intros Hk0. specialize (Hd Hk0).
        rewrite List.Forall_forall in Hd |- *. intros x Hx.
        destruct (Hin x Hx) as [->|Hold]; [now right|]. now apply Hd.
    + cbn. repeat split; auto.
Qed.

Lemma ordem_a_direita_inserir (m : memoria) (a : ArvoreBinariaBusca.t)
    (r : ref) (p : Z) :
  ordem_a_direita m (ArvoreBinariaBusca.raiz a) ->
  ordem_a_direita m
    (ArvoreBinariaBusca.raiz (fst (ArvoreBinariaBusca.inserir m a r p))).
Proof.
  unfold ArvoreBinariaBusca.inserir. destruct a as [no]. simpl.
  destruct no as [|r0 p0 e d]; intros H.
  - cbn. repeat split; auto.
  - pose proof (ordem_a_direita__inserir m r p _ H) as H'.
    destruct (ArvoreBinariaBusca._inserir m (Nodo r0 p0 e d) r p)
      as [no' out]. exact H'.
Qed.

Lemma coerente_ref_valida (s : Estado) (r : ref) (p : Z) :
  coerente s -> In (r, p) (entradas (raiz_de s)) ->
  (0 <= p /\ registros_de s !! Z.to_nat p = Some r)
  /\ (r < length (mem s))%nat.
Proof.
  intros [H1 H2] Hin. destruct (H1 r p Hin) as [Hp Hl].
  repeat split; auto. apply H2.
  apply list_elem_of_In. eapply list_elem_of_lookup_2. exact Hl.
Qed.

(** Deleting a non-empty key that is present zeroes the shared record
    and then fails to find the key in the index. *)
Lemma remover_registro_mantem_indice (s : Estado) (k : string) (rn : ref)
    (pn : Z) (en dn : No) :
  bem_formado s -> k <> "" ->
  ArvoreBinariaBusca.buscar (mem s)
    (SistemaGerenciadorBD.indice (sgbd s)) k = Nodo rn pn en dn ->
  SistemaGerenciadorBD.remover_registro_por_cpf (mem s) (sgbd s) k
  = (zerar_em (mem s) rn, sgbd s, [RegistroRemovido k]).
Proof.
  intros [Hc Ho] Hk Hb.
  unfold SistemaGerenciadorBD.remover_registro_por_cpf. rewrite Hb.
  unfold ArvoreBinariaBusca.buscar in Hb.
  pose proof (_buscar_chave _ _ _ _ _ _ _ Hb) as [_ Hin].
  destruct (coerente_ref_valida s rn pn Hc Hin) as [[Hp Hl] Hr].
  assert (ArquivoRegistros.deletar (mem s)
            (SistemaGerenciadorBD.arquivo (sgbd s)) pn
          = zerar_em (mem s) rn) as ->.
  { unfold ArquivoRegistros.deletar, ArquivoRegistros.len.
    unfold registros_de in Hl. pose proof (lookup_lt_Some _ _ _ Hl).
    rewrite (proj2 (Z.leb_le 0 pn)) by lia.
    rewrite (proj2 (Z.ltb_lt pn _)) by lia.
    cbn [andb]. now rewrite Hl. }
  unfold ArvoreBinariaBusca.remover. unfold raiz_de in Ho.
  rewrite (_remover_ausente _ _ _
             (_buscar_apos_zerar _ _ _ _ _ _ _ Hk Hr Ho Hb)).
  destruct s as [m [arq [no]]]. reflexivity.
Qed.

Lemma bem_formado_inicial : bem_formado inicial.
Proof. split; [apply coerente_inicial | exact I]. Qed.

Lemma bem_formado_executa (op : Operacao) (s : Estado) :
  sem_remocao_vazia op = true -> bem_formado s -> bem_formado (executa op s).
Proof.
  intros Hop Hs. unfold sem_remocao_vazia in Hop.
  apply andb_true_iff in Hop as [Hg Hv].
  split; [apply coerente_executa; [exact Hg | apply Hs]|].
  destruct Hs as [Hc Ho].
  destruct op; simpl in Hg; try discriminate; try exact Ho.
  - (* a new record object *)
    cbn [executa mem raiz_de sgbd]. unfold raiz_de in *.
    eapply ordem_a_direita_mono; [|exact Ho].
    intros r p Hin. left.
    destruct (coerente_ref_valida s r p Hc Hin) as [_ Hr].
    unfold novo_Registro, cpf_de. cbn [fst].
    now rewrite lookup_app_l by exact Hr.
  - (* inserir_registro *)
    cbn [executa]. destruct (ref_valida (mem s) r); [|exact Ho].
    unfold raiz_de, SistemaGerenciadorBD.inserir_registro,
      ArquivoRegistros.inserir.
    pose proof (ordem_a_direita_inserir (mem s)
                  (SistemaGerenciadorBD.indice (sgbd s)) r) as H.
    match goal with
    | |- context [ArvoreBinariaBusca.inserir ?a ?b ?c ?d] =>
        specialize (H d Ho);
        destruct (ArvoreBinariaBusca.inserir a b c d) as [ind out]
    end.
    exact H.
  - (* remover_registro_por_cpf *)
    cbn [executa].
    destruct (ArvoreBinariaBusca.buscar (mem s)
                (SistemaGerenciadorBD.indice (sgbd s)) k)
      as [|rn pn en dn] eqn:Hb.
    + unfold SistemaGerenciadorBD.remover_registro_por_cpf.
      rewrite Hb. exact Ho.
    + apply negb_true_iff, String.eqb_neq in Hv.
      rewrite (remover_registro_mantem_indice s k rn pn en dn
                 (conj Hc Ho) Hv Hb).
      unfold raiz_de in *. cbn [mem sgbd].
      eapply ordem_a_direita_mono; [|exact Ho].
      intros r p _. apply cpf_de_zerar_em.
Qed.

Lemma bem_formado_executa_todas (ops : list Operacao) :
  forall s : Estado,
    forallb sem_remocao_vazia ops = true -> bem_formado s ->
    bem_formado (executa_todas ops s).
Proof.
  induction ops as [|op ops IH]; intros s Hops Hs; [exact Hs|].
  simpl in Hops. apply andb_true_iff in Hops as [Hop Hops].
  simpl. apply IH; [exact Hops|]. now apply bem_formado_executa.
Qed.


(** The restriction to non-empty keys matters for the history too: once
    deletions of the empty key have moved records up the tree, deleting
    a present non-empty key can remove another node that holds it. *)
Lemma remocao_vazia_no_historico :
  let s := executa_todas sessao_com_remocao_vazia inicial in
  let s' := executa (OpRemoverRegistroPorCpf "a") s in
  forallb pelo_gerenciador sessao_com_remocao_vazia = true
  /\ presente (mem s) (raiz_de s) "a"
  /\ tamanho (raiz_de s) = 5%nat
  /\ tamanho (raiz_de s') = 4%nat.
Proof.
  cbv zeta. unfold presente. vm_compute.
  repeat split; try reflexivity. discriminate.
Qed.



(** * Further properties of the code *)

(** ** The four traversals *)

Lemma _pre_ordem_permutacao (no : No) :
  forall resultado : list ref,
    Permutation (ArvoreBinariaBusca._pre_ordem no resultado)
                (resultado ++ map fst (entradas no)).
Proof.
  induction no as [|r p e IHe d IHd]; intros resultado; simpl.
  - now rewrite app_nil_r.
  - rewrite IHd, IHe, map_app. simpl. rewrite <- !app_assoc. simpl.
    apply Permutation_app_head. apply Permutation_middle.
Qed.

Lemma _pos_ordem_permutacao (no : No) :
  forall resultado : list ref,
    Permutation (ArvoreBinariaBusca._pos_ordem no resultado)
                (resultado ++ map fst (entradas no)).
Proof.
  induction no as [|r p e IHe d IHd]; intros resultado; simpl.
  - now rewrite app_nil_r.
  - rewrite IHd, IHe, map_app. simpl. rewrite <- !app_assoc.
    apply Permutation_app_head, Permutation_app_head.
    rewrite Permutation_app_comm. reflexivity.
Qed.

Lemma length_entradas (no : No) : length (entradas no) = tamanho no.
Proof.
  induction no as [|r p e IHe d IHd]; simpl; [reflexivity|].
  rewrite length_app. simpl. lia.
Qed.

(** The queue after one turn of the breadth-first loop. *)
Lemma flat_map_fila_seguinte {A : Type} (g : No -> list A) (e d : No)
    (fila0 : list No) :
  g Nulo = [] ->
  flat_map g
    match d with
    | Nulo => match e with
              | Nulo => fila0
              | Nodo _ _ _ _ => fila0 ++ [e]
              end
    | Nodo _ _ _ _ =>
        match e with
        | Nulo => fila0
        | Nodo _ _ _ _ => fila0 ++ [e]
        end ++ [d]
    end
  = flat_map g fila0 ++ g e ++ g d.
Proof.
  intros Hg.
  destruct e, d; rewrite ?flat_map_app; simpl;
    rewrite ?Hg, ?app_nil_r, <- ?app_assoc; reflexivity.
Qed.

(** The breadth-first loop reports every record of the queued subtrees. *)
Lemma largura_laco_permutacao (voltas : nat) :
  forall (fila : list No) (resultado : list ref),
    Forall (fun no => no <> Nulo) fila ->
    (tamanho_fila fila <= voltas)%nat ->
    Permutation (ArvoreBinariaBusca.largura_laco voltas fila resultado)
                (resultado
                 ++ flat_map (fun no => map fst (entradas no)) fila).
Proof.
  induction voltas as [|voltas IH]; intros fila resultado Hf Hv.
  - destruct fila as [|[|r p e d] fila0]; simpl in *.
    + rewrite app_nil_r. reflexivity.
    + inversion Hf; congruence.
    + lia.
  - destruct fila as [|[|r p e d] fila0]; simpl in *.
    + rewrite app_nil_r. reflexivity.
    + inversion Hf; congruence.
    + inversion Hf as [|? ? _ Hf0]; subst.
      rewrite IH.
      * rewrite flat_map_fila_seguinte by reflexivity.
        rewrite map_app. simpl. solve_Permutation.
      * destruct e, d; rewrite ?Forall_app; repeat split; auto;
          repeat constructor; discriminate.
      * destruct e, d; rewrite ?tamanho_fila_app; simpl in *; lia.
Qed.

(** X1: the four traversals visit the same record objects, each node
    once: every one of them is a rearrangement of the in-order list, and
    has as many elements as the tree has nodes. *)
Theorem X1_percursos_mesmos_registros :
  forall a : ArvoreBinariaBusca.t,
    Permutation (ArvoreBinariaBusca.pre_ordem a)
                (ArvoreBinariaBusca.em_ordem a)
    /\ Permutation (ArvoreBinariaBusca.pos_ordem a)
                   (ArvoreBinariaBusca.em_ordem a)
    /\ Permutation (ArvoreBinariaBusca.percurso_largura a)
                   (ArvoreBinariaBusca.em_ordem a)
    /\ length (ArvoreBinariaBusca.em_ordem a)
       = tamanho (ArvoreBinariaBusca.raiz a).
Proof.
  intros [no].
  unfold ArvoreBinariaBusca.pre_ordem, ArvoreBinariaBusca.pos_ordem,
    ArvoreBinariaBusca.em_ordem, ArvoreBinariaBusca.percurso_largura.
  cbn [ArvoreBinariaBusca.raiz].
  rewrite _em_ordem_entradas. simpl.
  repeat split.
  - apply (_pre_ordem_permutacao no []).
  - apply (_pos_ordem_permutacao no []).
  - destruct no as [|r p e d]; [reflexivity|].
    rewrite largura_laco_permutacao.
    + simpl. now rewrite app_nil_r.
    + repeat constructor. discriminate.
    + simpl. lia.
  - now rewrite length_map, length_entradas.
Qed.


Lemma nivel_alem_da_altura (no : No) :
  forall n : nat, (altura no <= n)%nat -> nivel n no = [].
Proof.
  induction no as [|r p e IHe d IHd]; intros n Hn; [reflexivity|].
  simpl in *. destruct n as [|n]; [lia|].
  rewrite IHe, IHd by lia. reflexivity.
Qed.

Lemma flat_map_vazio {A B : Type} (f : A -> list B) (l : list A) :
  (forall x, In x l -> f x = []) -> flat_map f l = [].
Proof.
  induction l as [|x l IH]; intros H; simpl; [reflexivity|].
  rewrite (H x) by now left. simpl. apply IH. intros y Hy. apply H.
  now right.
Qed.

Lemma flat_map_seq_S {B : Type} (f : nat -> list B) (h : nat) :
  flat_map f (seq 0 (S h)) = f O ++ flat_map (fun n => f (S n)) (seq 0 h).
Proof.
  simpl. f_equal. rewrite <- seq_shift. rewrite flat_map_concat_map.
  rewrite map_map. now rewrite <- flat_map_concat_map.
Qed.

(** Popping the head of the upper level moves its children to the end
    of the lower one. *)
Lemma niveis_da_fila_passo (r : ref) (p : Z) (e d : No) (q1 q2 : list No)
    (h : nat) :
  niveis_da_fila (Nodo r p e d :: q1) q2 h
  = r :: niveis_da_fila q1
           match d with
           | Nulo => match e with
                     | Nulo => q2
                     | Nodo _ _ _ _ => q2 ++ [e]
                     end
           | Nodo _ _ _ _ =>
               match e with
               | Nulo => q2
               | Nodo _ _ _ _ => q2 ++ [e]
               end ++ [d]
           end h.
Proof.
  unfold niveis_da_fila. simpl. f_equal. f_equal.
  apply flat_map_ext. intros n.
  rewrite flat_map_fila_seguinte by reflexivity.
  now rewrite <- !app_assoc.
Qed.

(** When the upper level is exhausted the lower one takes its place. *)
Lemma niveis_da_fila_desce (q2 : list No) (h : nat) :
  niveis_da_fila [] q2 (S h) = niveis_da_fila q2 [] h.
Proof.
  unfold niveis_da_fila. rewrite flat_map_seq_S. simpl.
  rewrite app_nil_r. f_equal. apply flat_map_ext. intros n.
  now rewrite app_nil_r.
Qed.

Lemma largura_laco_por_niveis (voltas : nat) :
  forall (q1 q2 : list No) (h : nat) (resultado : list ref),
    Forall (fun no => no <> Nulo) (q1 ++ q2) ->
    Forall (fun no => (altura no <= S h)%nat) q1 ->
    Forall (fun no => (altura no <= h)%nat) q2 ->
    (tamanho_fila (q1 ++ q2) <= voltas)%nat ->
    ArvoreBinariaBusca.largura_laco voltas (q1 ++ q2) resultado
    = resultado ++ niveis_da_fila q1 q2 h.
Proof.
  induction voltas as [|voltas IH].
  - intros q1 q2 h resultado Hn H1 H2 Hv.
    destruct (q1 ++ q2) as [|[|r p e d] fila0] eqn:E; simpl in Hv.
    + apply app_eq_nil in E as [-> ->]. simpl.
      unfold niveis_da_fila. simpl.
      rewrite flat_map_vazio by reflexivity. now rewrite app_nil_r.
    + inversion Hn; congruence.
    + lia.
  - assert (forall r p e d q1 q2 h resultado,
              Forall (fun no => no <> Nulo) ((Nodo r p e d :: q1) ++ q2) ->
              Forall (fun no => (altura no <= S h)%nat)
                     (Nodo r p e d :: q1) ->
              Forall (fun no => (altura no <= h)%nat) q2 ->
              (tamanho_fila ((Nodo r p e d :: q1) ++ q2) <= S voltas)%nat ->
              ArvoreBinariaBusca.largura_laco (S voltas)
                ((Nodo r p e d :: q1) ++ q2) resultado
              = resultado ++ niveis_da_fila (Nodo r p e d :: q1) q2 h)
      as Hpasso.
    { intros r p e d q1 q2 h resultado Hn H1 H2 Hv.
      rewrite niveis_da_fila_passo.
      inversion Hn as [|? ? _ Hn0]; subst.
      inversion H1 as [|? ? Hx H10]; subst. simpl in Hx, Hv.
      cbn [app ArvoreBinariaBusca.largura_laco].
      replace (match d with
               | Nulo => match e with
                         | Nulo => q1 ++ q2
                         | Nodo _ _ _ _ => (q1 ++ q2) ++ [e]
                         end
               | Nodo _ _ _ _ =>
                   match e with
                   | Nulo => q1 ++ q2
                   | Nodo _ _ _ _ => (q1 ++ q2) ++ [e]
                   end ++ [d]
               end)
        with (q1 ++ match d with
                    | Nulo => match e with
                              | Nulo => q2
                              | Nodo _ _ _ _ => q2 ++ [e]
                              end
                    | Nodo _ _ _ _ =>
                        match e with
                        | Nulo => q2
                        | Nodo _ _ _ _ => q2 ++ [e]
                        end ++ [d]
                    end)
        by (destruct e, d; rewrite <- ?app_assoc; reflexivity).
      rewrite (IH _ _ h).
      - rewrite <- app_assoc. reflexivity.
      - apply Forall_app in Hn0 as [Hq1 Hq2].
        destruct e, d; rewrite ?Forall_app; repeat split; auto;
          repeat constructor; discriminate.
      - exact H10.
      - destruct e, d; rewrite ?Forall_app; repeat split; auto;
          repeat constructor; simpl in *; lia.
      - rewrite tamanho_fila_app in Hv |- *.
        destruct e, d; rewrite ?tamanho_fila_app; simpl in *; lia. }
    intros q1 q2 h resultado Hn H1 H2 Hv.
    destruct q1 as [|[|r p e d] q1].
    + destruct q2 as [|[|r p e d] q2].
      * simpl. unfold niveis_da_fila. simpl.
        rewrite flat_map_vazio by reflexivity. now rewrite app_nil_r.
      * inversion Hn; congruence.
      * inversion H2 as [|? ? Hx H20]; subst. simpl in Hx.
        destruct h as [|h]; [lia|].
        rewrite niveis_da_fila_desce.
        rewrite <- (app_nil_r (Nodo r p e d :: q2)) at 1.
        apply Hpasso.
        -- now rewrite app_nil_r.
        -- constructor; [simpl; lia|].
           eapply Forall_impl; [exact H20|]. intros; simpl in *; lia.
        -- constructor.
        -- now rewrite app_nil_r.
    + inversion Hn; congruence.
    + now apply Hpasso.
Qed.

(** X2: [percurso_largura] returns the records level by level, the root
    first, each level from left to right. *)
Theorem X2_percurso_largura_por_niveis :
  forall a : ArvoreBinariaBusca.t,
    ArvoreBinariaBusca.percurso_largura a
    = por_niveis (ArvoreBinariaBusca.raiz a).
Proof.
  intros [no]. unfold ArvoreBinariaBusca.percurso_largura, por_niveis.
  cbn [ArvoreBinariaBusca.raiz].
  destruct no as [|r p e d]; [reflexivity|].
  change [Nodo r p e d] with ([Nodo r p e d] ++ []).
  rewrite (largura_laco_por_niveis _ _ _
             (Nat.max (altura e) (altura d))).
  - cbn [altura app]. rewrite flat_map_seq_S.
    unfold niveis_da_fila. simpl. f_equal.
    apply flat_map_ext. intros n. now rewrite app_nil_r.
  - repeat constructor. discriminate.
  - repeat constructor.
  - constructor.
  - simpl. lia.
Qed.

(** ** Inserting into the index *)

Section InsercaoNoIndice.

Variable m : memoria.

Lemma achado_folha (r : ref) (p : Z) (k : string) :
  achado m (Nodo r p Nulo Nulo) k
  = if String.eqb k (cpf_de m r) then Some (r, p) else None.
Proof.
  unfold achado. simpl.
  destruct (String.eqb k (cpf_de m r)); [reflexivity|].
  destruct (String.ltb k (cpf_de m r)); reflexivity.
Qed.

Lemma achado_Nodo (r0 : ref) (p0 : Z) (e d : No) (k : string) :
  achado m (Nodo r0 p0 e d) k
  = if String.eqb k (cpf_de m r0) then Some (r0, p0)
    else if String.ltb k (cpf_de m r0) then achado m e k
    else achado m d k.
Proof.
  unfold achado. simpl.
  destruct (String.eqb k (cpf_de m r0)); [reflexivity|].
  destruct (String.ltb k (cpf_de m r0)); reflexivity.
Qed.

Lemma achado_presente (no : No) (k : string) :
  presente m no k <-> achado m no k <> None.
Proof.
  unfold presente, achado.
  destruct (ArvoreBinariaBusca._buscar m no k); split; congruence.
Qed.

(** The search for another key does not see the insertion. *)
Lemma achado__inserir_outra (r : ref) (p : Z) (k : string) (no : No) :
  k <> cpf_de m r ->
  achado m (fst (ArvoreBinariaBusca._inserir m no r p)) k = achado m no k.
Proof.
  intros Hk. induction no as [|r0 p0 e IHe d IHd]; [reflexivity|].
  cbn [ArvoreBinariaBusca._inserir]. unfold Registro_gt, Registro_lt.
  assert (String.eqb k (cpf_de m r) = false) as Hneq
    by now apply String.eqb_neq.
  destruct (String.ltb (cpf_de m r) (cpf_de m r0)) eqn:L.
  - destruct e as [|re pe ee de].
    + cbn [fst]. rewrite (achado_Nodo r0), (achado_Nodo r0), achado_folha, Hneq.
      reflexivity.
    + destruct (ArvoreBinariaBusca._inserir m (Nodo re pe ee de) r p)
        as [e' out]. cbn [fst] in *.
      rewrite (achado_Nodo r0), (achado_Nodo r0), IHe. reflexivity.
  - destruct (String.ltb (cpf_de m r0) (cpf_de m r)) eqn:G;
      [|reflexivity].
    destruct d as [|rd pd ed dd].
    + cbn [fst]. rewrite (achado_Nodo r0), (achado_Nodo r0), achado_folha, Hneq.
      reflexivity.
    + destruct (ArvoreBinariaBusca._inserir m (Nodo rd pd ed dd) r p)
        as [d' out]. cbn [fst] in *.
      rewrite (achado_Nodo r0), (achado_Nodo r0), IHd. reflexivity.
Qed.

(** An absent key is attached where its search ended. *)
Lemma _inserir_ausente (r : ref) (p : Z) (no : No) :
  no <> Nulo -> achado m no (cpf_de m r) = None ->
  achado m (fst (ArvoreBinariaBusca._inserir m no r p)) (cpf_de m r)
  = Some (r, p)
  /\ tamanho (fst (ArvoreBinariaBusca._inserir m no r p)) = S (tamanho no)
  /\ snd (ArvoreBinariaBusca._inserir m no r p) = [].
Proof.
  induction no as [|r0 p0 e IHe d IHd]; intros Hn; [congruence|].
  rewrite achado_Nodo.
  cbn [ArvoreBinariaBusca._inserir]. unfold Registro_gt, Registro_lt.
  destruct (String.eqb_spec (cpf_de m r) (cpf_de m r0)) as [E|NE];
    [discriminate|].
  destruct (String.ltb (cpf_de m r) (cpf_de m r0)) eqn:L; intros Ha.
  - destruct e as [|re pe ee de].
    + cbn [fst snd]. rewrite (achado_Nodo r0), achado_folha.
      rewrite (proj2 (String.eqb_neq _ _) NE), L, String.eqb_refl.
      simpl. repeat split; lia.
    + destruct (IHe ltac:(discriminate) Ha) as [H1 [H2 H3]].
      destruct (ArvoreBinariaBusca._inserir m (Nodo re pe ee de) r p)
        as [e' out]. cbn [fst snd] in *.
      rewrite achado_Nodo, (proj2 (String.eqb_neq _ _) NE), L.
      repeat split; auto. simpl in *. lia.
  - destruct (String.ltb (cpf_de m r0) (cpf_de m r)) eqn:G.
    + destruct d as [|rd pd ed dd].
      * cbn [fst snd]. rewrite (achado_Nodo r0), achado_folha.
        rewrite (proj2 (String.eqb_neq _ _) NE), L, String.eqb_refl.
        simpl. repeat split; lia.
      * destruct (IHd ltac:(discriminate) Ha) as [H1 [H2 H3]].
        destruct (ArvoreBinariaBusca._inserir m (Nodo rd pd ed dd) r p)
          as [d' out]. cbn [fst snd] in *.
        rewrite achado_Nodo, (proj2 (String.eqb_neq _ _) NE), L.
        repeat split; auto. simpl in *. lia.
    + contradiction NE. now apply ltb_tricotomia.
Qed.

End InsercaoNoIndice.

(** X3: insert and lookup in the index, whatever the tree.  When the
    search does not find the key of the record, [inserir] adds one node
    holding that record and position, reports nothing, and the search
    for the key then returns this node; the result of the search for any
    other key is the same before and after. *)
Theorem X3_inserir_e_buscar :
  forall (m : memoria) (a : ArvoreBinariaBusca.t) (r : ref) (p : Z),
    (achado m (ArvoreBinariaBusca.raiz a) (cpf_de m r) = None ->
       achado m (ArvoreBinariaBusca.raiz
                   (fst (ArvoreBinariaBusca.inserir m a r p))) (cpf_de m r)
       = Some (r, p)
       /\ tamanho (ArvoreBinariaBusca.raiz
                    (fst (ArvoreBinariaBusca.inserir m a r p)))
          = S (tamanho (ArvoreBinariaBusca.raiz a))
       /\ snd (ArvoreBinariaBusca.inserir m a r p) = [])
    /\ (forall k : string,
          k <> cpf_de m r ->
          achado m (ArvoreBinariaBusca.raiz
                      (fst (ArvoreBinariaBusca.inserir m a r p))) k
          = achado m (ArvoreBinariaBusca.raiz a) k).
Proof.
  intros m [no] r p. unfold ArvoreBinariaBusca.inserir.
  cbn [ArvoreBinariaBusca.raiz].
  destruct no as [|r0 p0 e d].
  - cbn [fst snd ArvoreBinariaBusca.raiz]. split.
    + intros _. rewrite achado_folha, String.eqb_refl. auto.
    + intros k Hk. rewrite achado_folha.
      now rewrite (proj2 (String.eqb_neq _ _) Hk).
  - pose proof (_inserir_ausente m r p (Nodo r0 p0 e d)
                  ltac:(discriminate)) as H1.
    pose proof (fun k => achado__inserir_outra m r p k (Nodo r0 p0 e d))
      as H2.
    destruct (ArvoreBinariaBusca._inserir m (Nodo r0 p0 e d) r p)
      as [no' out]. cbn [fst snd ArvoreBinariaBusca.raiz] in *.
    split; [exact H1 | exact H2].
Qed.

Lemma X3_inserir_e_buscar_witness :
  let m := mem (executa_todas
                  (insere "B" 0%nat ++ insere "A" 1%nat
                   ++ [OpNovoRegistro "C" "Ana" uma_data false]) inicial) in
  let a := SistemaGerenciadorBD.indice
             (sgbd (executa_todas (insere "B" 0%nat ++ insere "A" 1%nat)
                      inicial)) in
  (achado m (ArvoreBinariaBusca.raiz
               (fst (ArvoreBinariaBusca.inserir m a 2%nat 7))) "C"
   = Some (2%nat, 7)
   /\ tamanho (ArvoreBinariaBusca.raiz
                (fst (ArvoreBinariaBusca.inserir m a 2%nat 7))) = 3%nat
   /\ snd (ArvoreBinariaBusca.inserir m a 2%nat 7) = [])
  /\ achado m (ArvoreBinariaBusca.raiz
                 (fst (ArvoreBinariaBusca.inserir m a 2%nat 7))) "A"
     = achado m (ArvoreBinariaBusca.raiz a) "A".
Proof.
  intros m a. split.
  - apply (proj1 (X3_inserir_e_buscar m a 2%nat 7)). reflexivity.
  - apply (proj2 (X3_inserir_e_buscar m a 2%nat 7) "A"). discriminate.
Defined.

(** ** Searching and removing in an ordered index *)

Section IndiceOrdenado.

Variable m : memoria.

Lemma filter_outra_chave_todas (k : string) (l : list (ref * Z)) :
  Forall (fun x => chave_da_entrada m x <> k) l ->
  List.filter (outra_chave m k) l = l.
Proof.
  induction l as [|x l IH]; intros H; [reflexivity|].
  inversion H as [|? ? Hx Hl]; subst. simpl. unfold outra_chave at 1.
  rewrite (proj2 (String.eqb_neq _ _) Hx). simpl. now rewrite IH.
Qed.

Lemma find_tem_chave_nenhuma (k : string) (l : list (ref * Z)) :
  Forall (fun x => chave_da_entrada m x <> k) l ->
  List.find (tem_chave m k) l = None.
Proof.
  induction l as [|x l IH]; intros H; [reflexivity|].
  inversion H as [|? ? Hx Hl]; subst. simpl. unfold tem_chave at 1.
  rewrite (proj2 (String.eqb_neq _ _) (not_eq_sym Hx)). now apply IH.
Qed.

Lemma find_app {A : Type} (f : A -> bool) (l1 l2 : list A) :
  List.find f (l1 ++ l2)
  = match List.find f l1 with
    | Some x => Some x
    | None => List.find f l2
    end.
Proof.
  induction l1 as [|x l1 IH]; simpl; [reflexivity|].
  destruct (f x); [reflexivity | exact IH].
Qed.

Lemma menores_diferentes (k0 k : string) (l : list (ref * Z)) :
  Forall (fun x => String.ltb (chave_da_entrada m x) k0 = true) l ->
  String.ltb k k0 = false ->
  Forall (fun x => chave_da_entrada m x <> k) l.
Proof.
  intros H L. eapply Forall_impl; [exact H|]. cbv beta. intros x Hx E.
  rewrite E in Hx. congruence.
Qed.

Lemma maiores_diferentes (k0 k : string) (l : list (ref * Z)) :
  Forall (fun x => String.ltb k0 (chave_da_entrada m x) = true) l ->
  String.ltb k0 k = false ->
  Forall (fun x => chave_da_entrada m x <> k) l.
Proof.
  intros H L. eapply Forall_impl; [exact H|]. cbv beta. intros x Hx E.
  rewrite E in Hx. congruence.
Qed.

(** [_minimo] returns the first node of the in-order sequence; it has no
    left child. *)
Lemma _minimo_cabeca (no : No) (rs : ref) (ps : Z) (es ds : No) :
  ArvoreBinariaBusca._minimo no = Nodo rs ps es ds ->
  es = Nulo /\ exists resto, entradas no = (rs, ps) :: resto.
Proof.
  induction no as [|r0 p0 e IHe d IHd]; [discriminate|].
  cbn [ArvoreBinariaBusca._minimo]. destruct e as [|re pe ee de].
  - intros [= -> -> <- <-]. split; [reflexivity|]. now eexists.
  - intros M. destruct (IHe M) as [Hes [resto Hent]]. split; [exact Hes|].
    exists (resto ++ (r0, p0) :: entradas d).
    change (entradas (Nodo re pe ee de) ++ (r0, p0) :: entradas d
            = (rs, ps) :: resto ++ (r0, p0) :: entradas d).
    now rewrite Hent.
Qed.

(** In an ordered tree [_remover] deletes exactly the entries that hold
    the key and keeps the others in their order. *)
Lemma entradas__remover_ordenada (no : No) :
  forall k : string,
    abb_ordenada m no ->
    entradas (ArvoreBinariaBusca._remover m no k)
    = List.filter (outra_chave m k) (entradas no).
Proof.
  induction no as [|r0 p0 e IHe d IHd]; intros k; [reflexivity|].
  intros [He [Hd [Hoe Hod]]]. cbn [ArvoreBinariaBusca._remover entradas].
  rewrite List.filter_app. cbn [List.filter].
  change (outra_chave m k (r0, p0))
    with (negb (String.eqb (cpf_de m r0) k)).
  destruct (String.ltb k (cpf_de m r0)) eqn:L.
  - cbn [entradas]. rewrite IHe by exact Hoe.
    rewrite (proj2 (String.eqb_neq _ _)
               (not_eq_sym (ltb_neq _ _ L))). cbn [negb].
    rewrite (filter_outra_chave_todas k (entradas d)); [reflexivity|].
    eapply maiores_diferentes; [exact Hd|]. now apply ltb_asym.
  - destruct (String.ltb (cpf_de m r0) k) eqn:G.
    + cbn [entradas]. rewrite IHd by exact Hod.
      rewrite (proj2 (String.eqb_neq _ _) (ltb_neq _ _ G)). cbn [negb].
      rewrite (filter_outra_chave_todas k (entradas e)); [reflexivity|].
      eapply menores_diferentes; [exact He|]. now apply ltb_asym.
    + pose proof (ltb_tricotomia _ _ L G) as ->.
      rewrite String.eqb_refl. cbn [negb].
      rewrite (filter_outra_chave_todas _ (entradas e))
        by (eapply menores_diferentes; [exact He | apply ltb_irrefl]).
      rewrite (filter_outra_chave_todas _ (entradas d))
        by (eapply maiores_diferentes; [exact Hd | apply ltb_irrefl]).
      destruct e as [|re pe ee de]; [reflexivity|].
      destruct d as [|rd pd ed dd]; [now rewrite app_nil_r|].
      destruct (ArvoreBinariaBusca._minimo (Nodo rd pd ed dd))
        as [|rs ps es ds] eqn:M.
      { now apply _minimo_nao_nulo in M. }
      pose proof (_minimo_cabeca _ _ _ _ _ M) as [_ [resto Hcab]].
      pose proof (abb_ordenada_crescente m _ Hod) as Hsort.
      remember (Nodo rd pd ed dd) as dir. remember (Nodo re pe ee de) as esq.
      cbn [entradas]. rewrite IHd by exact Hod. f_equal.
      rewrite Hcab in Hsort |- *. cbn [List.filter].
      change (outra_chave m (cpf_de m rs) (rs, ps))
        with (negb (String.eqb (cpf_de m rs) (cpf_de m rs))).
      rewrite String.eqb_refl. cbn [negb]. f_equal.
      apply filter_outra_chave_todas.
      simpl in Hsort. inversion Hsort as [|? ? _ Hmaiores]; subst.
      rewrite List.Forall_forall in Hmaiores |- *. intros x Hx.
      apply not_eq_sym, ltb_neq. apply Hmaiores.
      apply in_map_iff. now exists x.
Qed.

(** In an ordered tree the search returns the entry that holds the key,
    if there is one. *)
Lemma achado_ordenada (no : No) (k : string) :
  abb_ordenada m no ->
  achado m no k = List.find (tem_chave m k) (entradas no).
Proof.
  induction no as [|r0 p0 e IHe d IHd]; [reflexivity|].
  intros [He [Hd [Hoe Hod]]]. rewrite achado_Nodo. cbn [entradas].
  rewrite find_app. cbn [List.find].
  change (tem_chave m k (r0, p0)) with (String.eqb k (cpf_de m r0)).
  destruct (String.eqb_spec k (cpf_de m r0)) as [E|NE].
  - rewrite (find_tem_chave_nenhuma k (entradas e)); [reflexivity|].
    eapply menores_diferentes; [exact He|]. rewrite E. apply ltb_irrefl.
  - destruct (String.ltb k (cpf_de m r0)) eqn:L.
    + rewrite IHe by exact Hoe.
      destruct (List.find (tem_chave m k) (entradas e)); [reflexivity|].
      symmetry. apply find_tem_chave_nenhuma.
      eapply maiores_diferentes; [exact Hd|]. now apply ltb_asym.
    + rewrite (find_tem_chave_nenhuma k (entradas e)).
      * now apply IHd.
      * eapply menores_diferentes; [exact He | exact L].
Qed.

End IndiceOrdenado.

Lemma find_filter_outra_chave (m : memoria) (k k' : string)
    (l : list (ref * Z)) :
  List.find (tem_chave m k') (List.filter (outra_chave m k) l)
  = if String.eqb k' k then None else List.find (tem_chave m k') l.
Proof.
  induction l as [|x l IH]; simpl.
  - now destruct (String.eqb k' k).
  - unfold outra_chave at 1, tem_chave at 2.
    destruct (String.eqb_spec (chave_da_entrada m x) k) as [E|NE]; simpl.
    + rewrite IH. destruct (String.eqb_spec k' k) as [E'|NE']; [reflexivity|].
      rewrite E. now rewrite (proj2 (String.eqb_neq _ _) NE').
    + unfold tem_chave at 1.
      destruct (String.eqb_spec k' (chave_da_entrada m x)) as [E'|NE'].
      * subst k'. now rewrite (proj2 (String.eqb_neq _ _) NE).
      * exact IH.
Qed.

(** X4: removal from an ordered index.  [remover] deletes exactly the
    node that holds the key and keeps every other (record, position)
    pair, in the same order; the tree stays ordered, the removed key is
    no longer found, and every other key is found as before. *)
Theorem X4_remover_em_indice_ordenado :
  forall (m : memoria) (a : ArvoreBinariaBusca.t) (k : string),
    abb_ordenada m (ArvoreBinariaBusca.raiz a) ->
    entradas (ArvoreBinariaBusca.raiz (ArvoreBinariaBusca.remover m a k))
    = List.filter (outra_chave m k) (entradas (ArvoreBinariaBusca.raiz a))
    /\ abb_ordenada m
         (ArvoreBinariaBusca.raiz (ArvoreBinariaBusca.remover m a k))
    /\ ArvoreBinariaBusca.buscar m (ArvoreBinariaBusca.remover m a k) k
       = Nulo
    /\ forall k' : string,
         k' <> k ->
         achado m (ArvoreBinariaBusca.raiz
                     (ArvoreBinariaBusca.remover m a k)) k'
         = achado m (ArvoreBinariaBusca.raiz a) k'.
Proof.
  intros m [no] k Ho. unfold ArvoreBinariaBusca.remover,
    ArvoreBinariaBusca.buscar. cbn [ArvoreBinariaBusca.raiz] in *.
  pose proof (abb_ordenada__remover m no k Ho) as Ho'.
  pose proof (entradas__remover_ordenada m no k Ho) as Hent.
  repeat split; auto.
  - pose proof (achado_ordenada m _ k Ho') as H.
    rewrite Hent, find_filter_outra_chave, String.eqb_refl in H.
    unfold achado in H.
    destruct (ArvoreBinariaBusca._buscar m
                (ArvoreBinariaBusca._remover m no k) k);
      [reflexivity | discriminate].
  - intros k' Hk'.
    rewrite (achado_ordenada m _ k' Ho'), (achado_ordenada m _ k' Ho).
    rewrite Hent, find_filter_outra_chave.
    now rewrite (proj2 (String.eqb_neq _ _) Hk').
Qed.

Lemma X4_remover_em_indice_ordenado_witness :
  let m := mem (executa_todas
                  (insere "B" 0%nat ++ insere "A" 1%nat ++ insere "C" 2%nat)
                  inicial) in
  let a := SistemaGerenciadorBD.indice
             (sgbd (executa_todas
                      (insere "B" 0%nat ++ insere "A" 1%nat
                       ++ insere "C" 2%nat) inicial)) in
  entradas (ArvoreBinariaBusca.raiz (ArvoreBinariaBusca.remover m a "B"))
  = List.filter (outra_chave m "B") (entradas (ArvoreBinariaBusca.raiz a))
  /\ abb_ordenada m
       (ArvoreBinariaBusca.raiz (ArvoreBinariaBusca.remover m a "B"))
  /\ ArvoreBinariaBusca.buscar m (ArvoreBinariaBusca.remover m a "B") "B"
     = Nulo
  /\ forall k' : string,
       k' <> "B" ->
       achado m (ArvoreBinariaBusca.raiz
                   (ArvoreBinariaBusca.remover m a "B")) k'
       = achado m (ArvoreBinariaBusca.raiz a) k'.
Proof.
  intros m a.
  apply (X4_remover_em_indice_ordenado m a "B").
  vm_compute. repeat constructor.
Defined.

(** X5: in an ordered index the search finds a key exactly when some
    node holds it, and the node returned is the one that holds it. *)
Theorem X5_busca_em_indice_ordenado :
  forall (m : memoria) (a : ArvoreBinariaBusca.t) (k : string),
    abb_ordenada m (ArvoreBinariaBusca.raiz a) ->
    (ArvoreBinariaBusca.buscar m a k <> Nulo
     <-> In k (chaves m (ArvoreBinariaBusca.em_ordem a)))
    /\ achado m (ArvoreBinariaBusca.raiz a) k
       = List.find (tem_chave m k) (entradas (ArvoreBinariaBusca.raiz a)).
Proof.
  intros m [no] k Ho. unfold ArvoreBinariaBusca.buscar,
    ArvoreBinariaBusca.em_ordem, chaves.
  cbn [ArvoreBinariaBusca.raiz] in *.
  split; [|now apply achado_ordenada].
  rewrite _em_ordem_entradas. simpl. rewrite map_map. split.
  - intros H.
    destruct (ArvoreBinariaBusca._buscar m no k) as [|rn pn en dn] eqn:Hb;
      [congruence|].
    destruct (_buscar_chave m _ _ _ _ _ _ Hb) as [Hk Hin].
    apply in_map_iff. exists (rn, pn). split; [exact Hk | exact Hin].
  - intros Hin. now apply (abb_ordenada_presente m no k Ho).
Qed.

Lemma X5_busca_em_indice_ordenado_witness :
  let m := mem (executa_todas
                  (insere "B" 0%nat ++ insere "A" 1%nat ++ insere "C" 2%nat)
                  inicial) in
  let a := SistemaGerenciadorBD.indice
             (sgbd (executa_todas
                      (insere "B" 0%nat ++ insere "A" 1%nat
                       ++ insere "C" 2%nat) inicial)) in
  (ArvoreBinariaBusca.buscar m a "C" <> Nulo
   <-> In "C" (chaves m (ArvoreBinariaBusca.em_ordem a)))
  /\ achado m (ArvoreBinariaBusca.raiz a) "C"
     = List.find (tem_chave m "C") (entradas (ArvoreBinariaBusca.raiz a)).
Proof.
  intros m a.
  apply (X5_busca_em_indice_ordenado m a "C").
  vm_compute. repeat constructor.
Defined.

(** X6: as long as no record object changes, every index built from the
    empty one by calls of [inserir] and [remover] lists its keys in
    strictly ascending order in [em_ordem]. *)
Theorem X6_indice_sozinho_fica_ordenado :
  forall (m : memoria) (ops : list OpIndice),
    estritamente_crescente
      (chaves m (ArvoreBinariaBusca.em_ordem
                   (fold_left (executa_indice m) ops
                      ArvoreBinariaBusca.nova))).
Proof. intros m ops. apply indice_mantem_ordem. Qed.

(** ** Building an index from a list of pairs *)

Lemma achado_inserir (m : memoria) (a : ArvoreBinariaBusca.t) (r : ref)
    (p : Z) (k : string) :
  achado m (ArvoreBinariaBusca.raiz
              (fst (ArvoreBinariaBusca.inserir m a r p))) k
  = match achado m (ArvoreBinariaBusca.raiz a) k with
    | Some x => Some x
    | None => if String.eqb k (cpf_de m r) then Some (r, p) else None
    end.
Proof.
  destruct (String.eqb_spec k (cpf_de m r)) as [->|NE].
  - destruct (achado m (ArvoreBinariaBusca.raiz a) (cpf_de m r)) as [x|]
      eqn:Ha.
    + rewrite inserir_presente; [exact Ha|].
      apply achado_presente. congruence.
    + destruct a as [no]. unfold ArvoreBinariaBusca.inserir.
      cbn [ArvoreBinariaBusca.raiz] in *. destruct no as [|r0 p0 e d].
      * cbn. now rewrite achado_folha, String.eqb_refl.
      * pose proof (_inserir_ausente m r p (Nodo r0 p0 e d)
                      ltac:(discriminate) Ha) as [H _].
        destruct (ArvoreBinariaBusca._inserir m (Nodo r0 p0 e d) r p)
          as [no' out]. exact H.
  - destruct a as [no]. unfold ArvoreBinariaBusca.inserir.
    cbn [ArvoreBinariaBusca.raiz]. destruct no as [|r0 p0 e d].
    + cbn. rewrite achado_folha.
      now rewrite (proj2 (String.eqb_neq _ _) NE).
    + pose proof (achado__inserir_outra m r p k (Nodo r0 p0 e d) NE) as H.
      destruct (ArvoreBinariaBusca._inserir m (Nodo r0 p0 e d) r p)
        as [no' out]. cbn [fst ArvoreBinariaBusca.raiz] in *.
      rewrite H. now destruct (achado m (Nodo r0 p0 e d) k).
Qed.

Lemma achado_fold_inserir (m : memoria) (l : list (ref * Z)) :
  forall (a : ArvoreBinariaBusca.t) (k : string),
    achado m
      (ArvoreBinariaBusca.raiz
         (fold_left (fun self '(reg, pos) =>
                       fst (ArvoreBinariaBusca.inserir m self reg pos))
            l a)) k
    = match achado m (ArvoreBinariaBusca.raiz a) k with
      | Some x => Some x
      | None => List.find (tem_chave m k) l
      end.
Proof.
  induction l as [|[r p] l IH]; intros a k; simpl.
  - now destruct (achado m (ArvoreBinariaBusca.raiz a) k).
  - rewrite IH, achado_inserir.
    change (tem_chave m k (r, p)) with (String.eqb k (cpf_de m r)).
    destruct (achado m (ArvoreBinariaBusca.raiz a) k); [reflexivity|].
    now destruct (String.eqb k (cpf_de m r)).
Qed.

Lemma abb_ordenada_fold_inserir (m : memoria) (l : list (ref * Z)) :
  forall a : ArvoreBinariaBusca.t,
    abb_ordenada m (ArvoreBinariaBusca.raiz a) ->
    abb_ordenada m
      (ArvoreBinariaBusca.raiz
         (fold_left (fun self '(reg, pos) =>
                       fst (ArvoreBinariaBusca.inserir m self reg pos))
            l a)).
Proof.
  induction l as [|[r p] l IH]; intros a Ha; [exact Ha|].
  simpl. apply IH.
  exact (abb_ordenada_executa_indice m a (IInserir r p) Ha).
Qed.

(** X7: the index built by the constructor from a list of (record,
    position) pairs is ordered, and for every key the search returns the
    first pair of the list that has this key: later pairs with a key
    already taken are dropped. *)
Theorem X7_construtor_a_partir_de_lista :
  forall (m : memoria) (registros_iter : list (ref * Z)) (k : string),
    estritamente_crescente
      (chaves m (ArvoreBinariaBusca.em_ordem
                   (ArvoreBinariaBusca.init m registros_iter)))
    /\ achado m
         (ArvoreBinariaBusca.raiz (ArvoreBinariaBusca.init m registros_iter))
         k
       = List.find (tem_chave m k) registros_iter.
Proof.
  intros m l k. unfold ArvoreBinariaBusca.init. split.
  - pose proof (abb_ordenada_fold_inserir m l ArvoreBinariaBusca.nova I)
      as H.
    apply abb_ordenada_crescente in H.
    unfold ArvoreBinariaBusca.em_ordem, chaves.
    rewrite _em_ordem_entradas. simpl. rewrite map_map. exact H.
  - now rewrite achado_fold_inserir.
Qed.

(** ** Removing from any index *)

Lemma tamanho__remover (m : memoria) (no : No) :
  forall k : string,
    (tamanho (ArvoreBinariaBusca._remover m no k) <= tamanho no)%nat.
Proof.
  induction no as [|r0 p0 e IHe d IHd]; intros k; [simpl; lia|].
  cbn [ArvoreBinariaBusca._remover].
  destruct (String.ltb k (cpf_de m r0)).
  - specialize (IHe k). simpl. lia.
  - destruct (String.ltb (cpf_de m r0) k).
    + specialize (IHd k). simpl. lia.
    + destruct e as [|re pe ee de]; [simpl; lia|].
      destruct d as [|rd pd ed dd]; [simpl; lia|].
      destruct (ArvoreBinariaBusca._minimo (Nodo rd pd ed dd))
        as [|rs ps es ds]; [lia|].
      specialize (IHd (cpf_de m rs)).
      remember (Nodo rd pd ed dd) as dir. remember (Nodo re pe ee de) as esq.
      simpl. lia.
Qed.

(** X8: whatever the tree, [remover] never adds a node nor invents a
    (record, position) pair, and when the search does not find the key
    it returns the index unchanged. *)
Theorem X8_remover_nunca_acrescenta :
  forall (m : memoria) (a : ArvoreBinariaBusca.t) (k : string),
    (tamanho (ArvoreBinariaBusca.raiz (ArvoreBinariaBusca.remover m a k))
     <= tamanho (ArvoreBinariaBusca.raiz a))%nat
    /\ (forall x : ref * Z,
          In x (entradas (ArvoreBinariaBusca.raiz
                            (ArvoreBinariaBusca.remover m a k))) ->
          In x (entradas (ArvoreBinariaBusca.raiz a)))
    /\ (ArvoreBinariaBusca.buscar m a k = Nulo ->
        ArvoreBinariaBusca.remover m a k = a).
Proof.
  intros m [no] k. unfold ArvoreBinariaBusca.remover,
    ArvoreBinariaBusca.buscar. cbn [ArvoreBinariaBusca.raiz].
  repeat split.
  - apply tamanho__remover.
  - apply entradas__remover.
  - intros H. now rewrite _remover_ausente.
Qed.

Lemma X8_remover_nunca_acrescenta_witness :
  let s := executa_todas
             (insere "B" 0%nat ++ insere "A" 1%nat ++ insere "C" 2%nat)
             inicial in
  ArvoreBinariaBusca.remover (mem s)
    (SistemaGerenciadorBD.indice (sgbd s)) "D"
  = SistemaGerenciadorBD.indice (sgbd s).
Proof.
  intros s.
  apply (proj2 (proj2 (X8_remover_nunca_acrescenta (mem s)
                         (SistemaGerenciadorBD.indice (sgbd s)) "D"))).
  reflexivity.
Defined.

(** ** Comparing records *)

(** X9: records compare by their keys alone, and of [a < b], [a == b]
    and [a > b] exactly one holds; [a == b] means the keys are equal,
    whatever the other fields. *)
Theorem X9_comparacao_de_registros :
  forall (m : memoria) (a b : ref),
    (Registro_eq m a b = true <-> cpf_de m a = cpf_de m b)
    /\ ((Registro_lt m a b = true /\ Registro_eq m a b = false
         /\ Registro_gt m a b = false)
        \/ (Registro_lt m a b = false /\ Registro_eq m a b = true
            /\ Registro_gt m a b = false)
        \/ (Registro_lt m a b = false /\ Registro_eq m a b = false
            /\ Registro_gt m a b = true)).
Proof.
  intros m a b. unfold Registro_gt, Registro_lt, Registro_eq.
  split; [apply String.eqb_eq|].
  destruct (String.ltb (cpf_de m a) (cpf_de m b)) eqn:L.
  - left. repeat split.
    + apply String.eqb_neq. now apply ltb_neq.
    + now apply ltb_asym.
  - destruct (String.ltb (cpf_de m b) (cpf_de m a)) eqn:G.
    + right. right. repeat split.
      apply String.eqb_neq. apply not_eq_sym. now apply ltb_neq.
    + right. left. repeat split.
      apply String.eqb_eq. now apply ltb_tricotomia.
Qed.

(** ** The record file, further *)

(** X10: [ArquivoRegistros.inserir] appends: it returns the old length
    as the position, the record is read back at that position, and every
    earlier position reads as before. *)
Theorem X10_arquivo_inserir_e_ler :
  forall (a : ArquivoRegistros.t) (r : ref),
    snd (ArquivoRegistros.inserir a r) = ArquivoRegistros.len a
    /\ ArquivoRegistros.len (fst (ArquivoRegistros.inserir a r))
       = ArquivoRegistros.len a + 1
    /\ ArquivoRegistros.buscar_por_posicao
         (fst (ArquivoRegistros.inserir a r))
         (snd (ArquivoRegistros.inserir a r)) = Some r
    /\ forall p : Z,
         p <> ArquivoRegistros.len a ->
         ArquivoRegistros.buscar_por_posicao
           (fst (ArquivoRegistros.inserir a r)) p
         = ArquivoRegistros.buscar_por_posicao a p.
Proof.
  intros [l] r.
  unfold ArquivoRegistros.inserir, ArquivoRegistros.buscar_por_posicao,
    ArquivoRegistros.len.
  cbn [fst snd ArquivoRegistros.registros].
  rewrite length_app. cbn [length].
  repeat split; try lia.
  - replace (Z.of_nat (length l + 1) - 1) with (Z.of_nat (length l)) by lia.
    rewrite (proj2 (Z.leb_le 0 _)) by lia.
    rewrite (proj2 (Z.ltb_lt _ _)) by lia.
    cbn [andb]. rewrite Nat2Z.id, lookup_app_r by lia.
    now rewrite Nat.sub_diag.
  - intros p Hp.
    destruct (Z.leb_spec 0 p) as [H0|H0]; [|reflexivity]. cbn [andb].
    destruct (Z.ltb_spec p (Z.of_nat (length l))) as [H1|H1].
    + rewrite (proj2 (Z.ltb_lt _ _)) by lia.
      apply lookup_app_l. lia.
    + destruct (Z.ltb_spec p (Z.of_nat (length l + 1))); [lia|reflexivity].
Qed.

Lemma X10_arquivo_inserir_e_ler_witness :
  let a := {| ArquivoRegistros.registros := [4%nat; 8%nat] |} in
  ArquivoRegistros.buscar_por_posicao
    (fst (ArquivoRegistros.inserir a 9%nat)) 1
  = ArquivoRegistros.buscar_por_posicao a 1.
Proof.
  intros a.
  apply (proj2 (proj2 (proj2 (X10_arquivo_inserir_e_ler a 9%nat))) 1).
  discriminate.
Defined.

Lemma executa_todas_preserva_posicoes (ops : list Operacao) :
  forall (s : Estado) (p : nat) (r : ref),
    registros_de s !! p = Some r ->
    registros_de (executa_todas ops s) !! p = Some r.
Proof.
  induction ops as [|op ops IH]; intros s p r H; [exact H|].
  simpl. apply IH. now apply executa_preserva_posicoes.
Qed.

(** X11: positions are permanent: whatever is done afterwards on the
    file, the index or the table manager, a slot keeps holding the same
    record object, so the file never shrinks. *)
Theorem X11_posicoes_permanentes :
  forall (ops : list Operacao) (s : Estado) (p : nat) (r : ref),
    registros_de s !! p = Some r ->
    registros_de (executa_todas ops s) !! p = Some r
    /\ (length (registros_de s)
        <= length (registros_de (executa_todas ops s)))%nat.
Proof.
  intros ops s p r H. split.
  - now apply executa_todas_preserva_posicoes.
  - destruct (Nat.le_gt_cases (length (registros_de s))
                (length (registros_de (executa_todas ops s))))
      as [Hle|Hgt]; [exact Hle|].
    destruct (registros_de s) as [|x l] eqn:E; [simpl; lia|].
    assert (is_Some ((x :: l) !! length l)) as [y Hy]
      by (apply lookup_lt_is_Some; simpl; lia).
    rewrite <- E in Hy.
    pose proof (executa_todas_preserva_posicoes ops s _ _ Hy) as Hz.
    apply lookup_lt_Some in Hz. simpl in Hgt. lia.
Qed.

Lemma X11_posicoes_permanentes_witness :
  let s := executa_todas (insere "A" 0%nat ++ insere "B" 1%nat) inicial in
  let ops := [OpRemoverRegistroPorCpf "A"; OpArquivoDeletar 1;
              OpArquivoInserir 0%nat; OpRemoverRegistroPorCpf ""] in
  registros_de (executa_todas ops s) !! 1%nat = Some 1%nat
  /\ (length (registros_de s)
      <= length (registros_de (executa_todas ops s)))%nat.
Proof.
  intros s ops.
  apply (X11_posicoes_permanentes ops s 1%nat 1%nat). reflexivity.
Defined.

(** X12: [deletar] on a valid position zeroes the record object stored
    there and nothing else: every other object is as before, no object
    is added, and deleting the position again changes nothing. *)
Theorem X12_deletar_zera_so_um_objeto :
  forall (m : memoria) (a : ArquivoRegistros.t) (p : Z) (r : ref),
    0 <= p ->
    ArquivoRegistros.registros a !! Z.to_nat p = Some r ->
    (r < length m)%nat ->
    ArquivoRegistros.deletar m a p !! r = Some registro_zerado
    /\ (forall j : ref, j <> r -> ArquivoRegistros.deletar m a p !! j = m !! j)
    /\ length (ArquivoRegistros.deletar m a p) = length m
    /\ ArquivoRegistros.deletar (ArquivoRegistros.deletar m a p) a p
       = ArquivoRegistros.deletar m a p.
Proof.
  intros m a p r Hp Hl Hr.
  pose proof (lookup_lt_Some _ _ _ Hl) as Hlt.
  assert (forall m', ArquivoRegistros.deletar m' a p = zerar_em m' r) as Hd.
  { intros m'. unfold ArquivoRegistros.deletar, ArquivoRegistros.len.
    rewrite (proj2 (Z.leb_le 0 p)) by lia.
    rewrite (proj2 (Z.ltb_lt p _)) by lia.
    cbn [andb]. now rewrite Hl. }
  rewrite !Hd. unfold zerar_em. repeat split.
  - rewrite list_lookup_alter_eq.
    destruct (lookup_lt_is_Some_2 m r Hr) as [x ->]. reflexivity.
  - intros j Hj. now apply list_lookup_alter_ne.
  - apply length_alter.
  - rewrite list_alter_alter_eq. apply list_alter_ext; auto.
Qed.

Lemma X12_deletar_zera_so_um_objeto_witness :
  let s := executa_todas (insere "A" 0%nat ++ insere "B" 1%nat) inicial in
  let m' := ArquivoRegistros.deletar (mem s)
              (SistemaGerenciadorBD.arquivo (sgbd s)) 1 in
  m' !! 1%nat = Some registro_zerado
  /\ (forall j : ref, j <> 1%nat -> m' !! j = mem s !! j)
  /\ length m' = length (mem s)
  /\ ArquivoRegistros.deletar m'
       (SistemaGerenciadorBD.arquivo (sgbd s)) 1 = m'.
Proof.
  intros s m'.
  apply (X12_deletar_zera_so_um_objeto (mem s)
           (SistemaGerenciadorBD.arquivo (sgbd s)) 1 1%nat).
  - lia.
  - reflexivity.
  - vm_compute. lia.
Defined.

(** ** The table manager, further *)

Lemma buscar_por_posicao_coerente (s : Estado) (r : ref) (p : Z) :
  coerente s -> In (r, p) (entradas (raiz_de s)) ->
  ArquivoRegistros.buscar_por_posicao
    (SistemaGerenciadorBD.arquivo (sgbd s)) p = Some r.
Proof.
  intros Hc Hin.
  destruct (coerente_ref_valida s r p Hc Hin) as [[Hp Hl] _].
  unfold ArquivoRegistros.buscar_por_posicao, ArquivoRegistros.len.
  unfold registros_de in Hl. pose proof (lookup_lt_Some _ _ _ Hl).
  rewrite (proj2 (Z.leb_le 0 p)) by lia.
  rewrite (proj2 (Z.ltb_lt p _)) by lia.
  exact Hl.
Qed.

(** X13: in every state reached through the table manager, each index
    node points at a position inside the file, and the slot at that
    position holds the very record object of the node. *)
Theorem X13_indice_aponta_para_o_arquivo :
  forall (ops : list Operacao) (r : ref) (p : Z),
    forallb pelo_gerenciador ops = true ->
    In (r, p) (entradas (raiz_de (executa_todas ops inicial))) ->
    0 <= p < Z.of_nat (length (registros_de (executa_todas ops inicial)))
    /\ ArquivoRegistros.buscar_por_posicao
         (SistemaGerenciadorBD.arquivo (sgbd (executa_todas ops inicial))) p
       = Some r
    /\ (r < length (mem (executa_todas ops inicial)))%nat.
Proof.
  intros ops r p Hops Hin.
  pose proof (coerente_executa_todas ops inicial Hops coerente_inicial)
    as Hc.
  destruct (coerente_ref_valida _ r p Hc Hin) as [[Hp Hl] Hr].
  pose proof (lookup_lt_Some _ _ _ Hl).
  repeat split; auto; try lia.
  now apply buscar_por_posicao_coerente.
Qed.

Lemma X13_indice_aponta_para_o_arquivo_witness :
  let s := executa_todas
             (insere "B" 0%nat ++ insere "A" 1%nat
              ++ [OpRemoverRegistroPorCpf "B"; OpRemoverRegistroPorCpf ""])
             inicial in
  0 <= 1 < Z.of_nat (length (registros_de s))
  /\ ArquivoRegistros.buscar_por_posicao
       (SistemaGerenciadorBD.arquivo (sgbd s)) 1 = Some 1%nat
  /\ (1 < length (mem s))%nat.
Proof.
  apply (X13_indice_aponta_para_o_arquivo
           (insere "B" 0%nat ++ insere "A" 1%nat
            ++ [OpRemoverRegistroPorCpf "B"; OpRemoverRegistroPorCpf ""])
           1%nat 1).
  - reflexivity.
  - vm_compute. now left.
Defined.

(** X14: insert then look up.  When the index does not find the key of
    a record that is not marked deleted, [inserir_registro] adds one
    slot and one node, reports nothing, and [buscar_registro_por_cpf]
    of that key then returns this very record. *)
Theorem X14_inserir_registro_e_buscar :
  forall (m : memoria) (g : SistemaGerenciadorBD.t) (r : ref),
    deletado_de m r = false ->
    achado m (ArvoreBinariaBusca.raiz (SistemaGerenciadorBD.indice g))
      (cpf_de m r) = None ->
    let g' := fst (SistemaGerenciadorBD.inserir_registro m g r) in
    SistemaGerenciadorBD.buscar_registro_por_cpf m g' (cpf_de m r) = Some r
    /\ ArquivoRegistros.registros (SistemaGerenciadorBD.arquivo g')
       = ArquivoRegistros.registros (SistemaGerenciadorBD.arquivo g) ++ [r]
    /\ tamanho (ArvoreBinariaBusca.raiz (SistemaGerenciadorBD.indice g'))
       = S (tamanho (ArvoreBinariaBusca.raiz
                       (SistemaGerenciadorBD.indice g)))
    /\ snd (SistemaGerenciadorBD.inserir_registro m g r) = [].
Proof.
  intros m [[l] a] r Hdel Hkey g'. subst g'.
  unfold SistemaGerenciadorBD.inserir_registro, ArquivoRegistros.inserir,
    ArquivoRegistros.len.
  cbn [SistemaGerenciadorBD.arquivo SistemaGerenciadorBD.indice
       ArquivoRegistros.registros] in *.
  set (pos := Z.of_nat (length (l ++ [r])) - 1).
  assert (pos = Z.of_nat (length l)) as Hpos
    by (unfold pos; rewrite length_app; simpl; lia).
  pose proof (achado_inserir m a r pos (cpf_de m r)) as Ha.
  rewrite Hkey, String.eqb_refl in Ha.
  assert (tamanho (ArvoreBinariaBusca.raiz
                     (fst (ArvoreBinariaBusca.inserir m a r pos)))
          = S (tamanho (ArvoreBinariaBusca.raiz a))
          /\ snd (ArvoreBinariaBusca.inserir m a r pos) = []) as [Ht Hout].
  { destruct a as [no]. unfold ArvoreBinariaBusca.inserir.
    cbn [ArvoreBinariaBusca.raiz] in *. destruct no as [|r0 p0 e d].
    - now split.
    - pose proof (_inserir_ausente m r pos (Nodo r0 p0 e d)
                    ltac:(discriminate) Hkey) as [_ H].
      destruct (ArvoreBinariaBusca._inserir m (Nodo r0 p0 e d) r pos)
        as [no' out]. exact H. }
  destruct (ArvoreBinariaBusca.inserir m a r pos) as [ind out].
  cbn [fst snd SistemaGerenciadorBD.arquivo SistemaGerenciadorBD.indice
       ArquivoRegistros.registros] in *.
  repeat split; auto.
  unfold SistemaGerenciadorBD.buscar_registro_por_cpf,
    ArvoreBinariaBusca.buscar.
  cbn [SistemaGerenciadorBD.arquivo SistemaGerenciadorBD.indice].
  unfold achado in Ha.
  destruct (ArvoreBinariaBusca._buscar m (ArvoreBinariaBusca.raiz ind)
              (cpf_de m r)) as [|rn pn en dn]; [discriminate|].
  injection Ha as -> ->.
  unfold ArquivoRegistros.buscar_por_posicao, ArquivoRegistros.len.
  cbn [ArquivoRegistros.registros]. rewrite Hpos, length_app. cbn [length].
  rewrite (proj2 (Z.leb_le 0 _)) by lia.
  rewrite (proj2 (Z.ltb_lt _ _)) by lia.
  cbn [andb]. rewrite Nat2Z.id, lookup_app_r by lia.
  rewrite Nat.sub_diag. cbn. now rewrite Hdel.
Qed.

Lemma X14_inserir_registro_e_buscar_witness :
  let s := executa_todas
             (insere "B" 0%nat ++ insere "A" 1%nat
              ++ [OpRemoverRegistroPorCpf "B";
                  OpNovoRegistro "C" "Ana" uma_data false]) inicial in
  let g' := fst (SistemaGerenciadorBD.inserir_registro (mem s) (sgbd s)
                   2%nat) in
  SistemaGerenciadorBD.buscar_registro_por_cpf (mem s) g' "C" = Some 2%nat
  /\ ArquivoRegistros.registros (SistemaGerenciadorBD.arquivo g')
     = ArquivoRegistros.registros (SistemaGerenciadorBD.arquivo (sgbd s))
       ++ [2%nat]
  /\ tamanho (ArvoreBinariaBusca.raiz (SistemaGerenciadorBD.indice g'))
     = S (tamanho (ArvoreBinariaBusca.raiz
                     (SistemaGerenciadorBD.indice (sgbd s))))
  /\ snd (SistemaGerenciadorBD.inserir_registro (mem s) (sgbd s) 2%nat)
     = [].
Proof.
  intros s.
  apply (X14_inserir_registro_e_buscar (mem s) (sgbd s) 2%nat);
    reflexivity.
Defined.

(** X15: what a lookup returns.  In every state reached through the
    table manager, a record returned by [buscar_registro_por_cpf] has
    the key asked for, is not marked deleted, and is the record of an
    index node and of the file slot that node points at. *)
Theorem X15_busca_devolve_registro_vivo_da_chave :
  forall (ops : list Operacao) (k : string) (r : ref),
    forallb pelo_gerenciador ops = true ->
    buscar_em (executa_todas ops inicial) k = Some r ->
    cpf_de (mem (executa_todas ops inicial)) r = k
    /\ deletado_de (mem (executa_todas ops inicial)) r = false
    /\ exists p : Z,
         In (r, p) (entradas (raiz_de (executa_todas ops inicial)))
         /\ registros_de (executa_todas ops inicial) !! Z.to_nat p = Some r.
Proof.
  intros ops k r Hops.
  pose proof (coerente_executa_todas ops inicial Hops coerente_inicial)
    as Hc.
  set (s := executa_todas ops inicial) in *.
  unfold buscar_em, SistemaGerenciadorBD.buscar_registro_por_cpf,
    ArvoreBinariaBusca.buscar.
  destruct (ArvoreBinariaBusca._buscar (mem s)
              (ArvoreBinariaBusca.raiz
                 (SistemaGerenciadorBD.indice (sgbd s))) k)
    as [|rn pn en dn] eqn:Hb; [discriminate|].
  destruct (_buscar_chave _ _ _ _ _ _ _ Hb) as [Hk Hin].
  rewrite (buscar_por_posicao_coerente s rn pn Hc Hin).
  destruct (deletado_de (mem s) rn) eqn:Hd; [discriminate|].
  cbn. intros [= <-]. repeat split; auto.
  exists pn. split; [exact Hin|].
  now destruct (coerente_ref_valida s rn pn Hc Hin) as [[_ Hl] _].
Qed.

Lemma X15_busca_devolve_registro_vivo_da_chave_witness :
  let s := executa_todas
             (insere "B" 0%nat ++ insere "A" 1%nat ++ insere "C" 2%nat
              ++ [OpRemoverRegistroPorCpf "B"]) inicial in
  cpf_de (mem s) 2%nat = "C"
  /\ deletado_de (mem s) 2%nat = false
  /\ exists p : Z,
       In (2%nat, p) (entradas (raiz_de s))
       /\ registros_de s !! Z.to_nat p = Some 2%nat.
Proof.
  apply (X15_busca_devolve_registro_vivo_da_chave
           (insere "B" 0%nat ++ insere "A" 1%nat ++ insere "C" 2%nat
            ++ [OpRemoverRegistroPorCpf "B"]) "C" 2%nat);
    reflexivity.
Defined.

(** X16: delete then look up.  In every state reached by insertions and
    deletions of non-empty keys, after [remover_registro_por_cpf] of a
    non-empty key neither the index search nor
    [buscar_registro_por_cpf] finds that key; and when the key was not
    found before, nothing at all is changed. *)
Theorem X16_remover_e_buscar :
  forall (ops : list Operacao) (k : string),
    forallb sem_remocao_vazia ops = true ->
    k <> "" ->
    let s := executa_todas ops inicial in
    let s' := executa (OpRemoverRegistroPorCpf k) s in
    achado (mem s') (raiz_de s') k = None
    /\ buscar_em s' k = None
    /\ (achado (mem s) (raiz_de s) k = None -> s' = s).
Proof.
  intros ops k Hops Hk s s'.
  pose proof (bem_formado_executa_todas ops inicial Hops
                bem_formado_inicial) as Hbf.
  fold s in Hbf. subst s'. cbn [executa].
  unfold buscar_em, SistemaGerenciadorBD.buscar_registro_por_cpf, achado,
    raiz_de.
  destruct (ArvoreBinariaBusca.buscar (mem s)
              (SistemaGerenciadorBD.indice (sgbd s)) k)
    as [|rn pn en dn] eqn:Hb.
  - unfold SistemaGerenciadorBD.remover_registro_por_cpf. rewrite Hb.
    cbn [mem sgbd]. unfold ArvoreBinariaBusca.buscar in *. rewrite Hb.
    repeat split. now destruct s.
  - rewrite (remover_registro_mantem_indice s k rn pn en dn Hbf Hk Hb).
    cbn [mem sgbd]. unfold ArvoreBinariaBusca.buscar in *.
    destruct (_buscar_chave _ _ _ _ _ _ _ Hb) as [_ Hin].
    destruct (coerente_ref_valida s rn pn (proj1 Hbf) Hin) as [_ Hr].
    pose proof (proj2 Hbf) as Ho. unfold raiz_de in Ho.
    rewrite (_buscar_apos_zerar _ _ _ _ _ _ _ Hk Hr Ho Hb).
    repeat split. rewrite Hb. discriminate.
Qed.

Lemma X16_remover_e_buscar_witness :
  let s := executa_todas
             (insere "B" 0%nat ++ insere "A" 1%nat ++ insere "C" 2%nat)
             inicial in
  let s' := executa (OpRemoverRegistroPorCpf "C") s in
  achado (mem s') (raiz_de s') "C" = None
  /\ buscar_em s' "C" = None
  /\ (achado (mem s) (raiz_de s) "C" = None -> s' = s).
Proof.
  apply (X16_remover_e_buscar
           (insere "B" 0%nat ++ insere "A" 1%nat ++ insere "C" 2%nat) "C").
  - reflexivity.
  - discriminate.
Defined.

Lemma em_ordem_nos_entradas (arq : ArquivoRegistros.t) (no : No) :
  forall acc : list (option ref),
    SistemaGerenciadorBD.em_ordem_nos arq no acc
    = acc ++ map (fun x : ref * Z =>
                    ArquivoRegistros.buscar_por_posicao arq (snd x))
                 (entradas no).
Proof.
  induction no as [|r p e IHe d IHd]; intros acc; simpl.
  - now rewrite app_nil_r.
  - rewrite IHd, IHe, map_app. simpl. now rewrite <- !app_assoc.
Qed.

(** X17: in every state reached through the table manager,
    [criar_arquivo_ordenado] returns exactly the records of the index
    nodes in in-order, none of them missing: one record per node, with
    the zeroed records of the nodes that deletions left in the index. *)
Theorem X17_criar_arquivo_ordenado_segue_o_indice :
  forall ops : list Operacao,
    forallb pelo_gerenciador ops = true ->
    SistemaGerenciadorBD.criar_arquivo_ordenado
      (sgbd (executa_todas ops inicial))
    = map Some (ArvoreBinariaBusca.em_ordem
                  (SistemaGerenciadorBD.indice
                     (sgbd (executa_todas ops inicial)))).
Proof.
  intros ops Hops.
  pose proof (coerente_executa_todas ops inicial Hops coerente_inicial)
    as Hc.
  set (s := executa_todas ops inicial) in *.
  unfold SistemaGerenciadorBD.criar_arquivo_ordenado,
    ArvoreBinariaBusca.em_ordem.
  rewrite em_ordem_nos_entradas, _em_ordem_entradas. simpl.
  rewrite map_map. apply map_ext_in. intros [r p] Hin. simpl.
  now apply buscar_por_posicao_coerente.
Qed.

Lemma X17_criar_arquivo_ordenado_segue_o_indice_witness :
  let s := executa_todas
             (insere "B" 0%nat ++ insere "A" 1%nat ++ insere "C" 2%nat
              ++ [OpRemoverRegistroPorCpf "A"]) inicial in
  SistemaGerenciadorBD.criar_arquivo_ordenado (sgbd s)
  = map Some (ArvoreBinariaBusca.em_ordem
                (SistemaGerenciadorBD.indice (sgbd s))).
Proof.
  apply (X17_criar_arquivo_ordenado_segue_o_indice
           (insere "B" 0%nat ++ insere "A" 1%nat ++ insere "C" 2%nat
            ++ [OpRemoverRegistroPorCpf "A"])).
  reflexivity.
Defined.

(** ** The smallest node *)

(** X18: on a non-empty subtree [_minimo] returns the leftmost node: it
    has no left child and comes first in in-order; in an ordered tree no
    key is smaller than its key. *)
Theorem X18_minimo_e_o_primeiro :
  forall (m : memoria) (no : No),
    no <> Nulo ->
    exists (rs : ref) (ps : Z) (ds : No) (resto : list (ref * Z)),
      ArvoreBinariaBusca._minimo no = Nodo rs ps Nulo ds
      /\ entradas no = (rs, ps) :: resto
      /\ (abb_ordenada m no ->
          Forall (fun x : ref * Z =>
                    String.ltb (cpf_de m (fst x)) (cpf_de m rs) = false)
                 (entradas no)).
Proof.
  intros m no Hn.
  destruct (ArvoreBinariaBusca._minimo no) as [|rs ps es ds] eqn:M.
  { now apply _minimo_nao_nulo in M. }
  destruct (_minimo_cabeca no rs ps es ds M) as [-> [resto Hent]].
  exists rs, ps, ds, resto. repeat split; auto.
  intros Ho. pose proof (_minimo_menor m no rs ps Nulo ds Ho M) as H.
  eapply Forall_impl; [exact H|]. cbv beta.
  intros x [E|L]; unfold chave_da_entrada in *.
  - rewrite E. apply ltb_irrefl.
  - now apply ltb_asym.
Qed.

Lemma X18_minimo_e_o_primeiro_witness :
  let s := executa_todas
             (insere "B" 0%nat ++ insere "A" 1%nat ++ insere "C" 2%nat)
             inicial in
  exists (rs : ref) (ps : Z) (ds : No) (resto : list (ref * Z)),
    ArvoreBinariaBusca._minimo (raiz_de s) = Nodo rs ps Nulo ds
    /\ entradas (raiz_de s) = (rs, ps) :: resto
    /\ (abb_ordenada (mem s) (raiz_de s) ->
        Forall (fun x : ref * Z =>
                  String.ltb (cpf_de (mem s) (fst x)) (cpf_de (mem s) rs)
                  = false)
               (entradas (raiz_de s))).
Proof.
  intros s.
  apply (X18_minimo_e_o_primeiro (mem s) (raiz_de s)).
  vm_compute. discriminate.
Defined.

(** ** Deep copy of the index *)

Lemma refs_validas_Nodo (m : memoria) (r : ref) (p : Z) (e d : No) :
  refs_validas m (Nodo r p e d)
  <-> (r < length m)%nat /\ refs_validas m e /\ refs_validas m d.
Proof.
  unfold refs_validas. cbn [entradas].
  rewrite Forall_app, Forall_cons. simpl. tauto.
Qed.

Lemma refs_validas_app (m n : memoria) (no : No) :
  refs_validas m no -> refs_validas (m ++ n) no.
Proof.
  unfold refs_validas. intros H. eapply Forall_impl; [exact H|].
  cbv beta. intros x Hx. rewrite length_app. lia.
Qed.

Lemma copia_fiel_base (m n1 m' : memoria) (no : No) :
  forall no' : No,
    refs_validas m no -> copia_fiel (m ++ n1) m' no no' ->
    copia_fiel m m' no no'.
Proof.
  induction no as [|r p e IHe d IHd]; intros [|r' p' e' d']; simpl;
    try tauto.
  intros Hv (Hp & Hr & Hl & He & Hd).
  apply refs_validas_Nodo in Hv as (Hrv & Hve & Hvd).
  rewrite length_app in Hr. rewrite lookup_app_l in Hl by exact Hrv.
  repeat split; auto. lia.
Qed.

Lemma copia_fiel_alvo (m m' n : memoria) (no : No) :
  forall no' : No,
    refs_validas m no -> copia_fiel m m' no no' ->
    copia_fiel m (m' ++ n) no no'.
Proof.
  induction no as [|r p e IHe d IHd]; intros [|r' p' e' d']; simpl;
    try tauto.
  intros Hv (Hp & Hr & Hl & He & Hd).
  apply refs_validas_Nodo in Hv as (Hrv & Hve & Hvd).
  repeat split; auto.
  destruct (lookup_lt_is_Some_2 m r Hrv) as [x Hx].
  rewrite Hx in Hl |- *. now apply lookup_app_l_Some.
Qed.

Lemma copiar_no_fiel (no : No) :
  forall m : memoria,
    refs_validas m no ->
    copia_fiel m (fst (ArvoreBinariaBusca.copiar_no m no)) no
      (snd (ArvoreBinariaBusca.copiar_no m no))
    /\ (exists novos,
          fst (ArvoreBinariaBusca.copiar_no m no) = m ++ novos)
    /\ Forall (fun x : ref * Z =>
                 (length m <= fst x
                  < length (fst (ArvoreBinariaBusca.copiar_no m no)))%nat)
              (entradas (snd (ArvoreBinariaBusca.copiar_no m no)))
    /\ NoDup (map fst (entradas (snd (ArvoreBinariaBusca.copiar_no m no)))).
Proof.
  induction no as [|r p e IHe d IHd]; intros m Hv.
  - simpl. repeat split; auto.
    + exists []. now rewrite app_nil_r.
    + constructor.
  - apply refs_validas_Nodo in Hv as (Hrv & Hve & Hvd).
    cbn [ArvoreBinariaBusca.copiar_no].
    unfold ArvoreBinariaBusca.deepcopy_Registro.
    destruct (lookup_lt_is_Some_2 m r Hrv) as [x Hx]. rewrite Hx.
    change (option_list (Some x)) with [x].
    specialize (IHe (m ++ [x]) (refs_validas_app m [x] e Hve)).
    destruct (ArvoreBinariaBusca.copiar_no (m ++ [x]) e) as [m2 e'].
    cbn [fst snd] in IHe. destruct IHe as (Fe & [n2 ->] & Re & Ne).
    specialize (IHd ((m ++ [x]) ++ n2)).
    rewrite <- app_assoc in IHd.
    specialize (IHd (refs_validas_app m ([x] ++ n2) d Hvd)).
    rewrite <- app_assoc in Fe, Re |- *.
    destruct (ArvoreBinariaBusca.copiar_no (m ++ [x] ++ n2) d) as [m3 d'].
    cbn [fst snd] in *. destruct IHd as (Fd & [n3 ->] & Rd & Nd).
    rewrite List.Forall_forall in Re, Rd.
    split; [|split; [|split]].
    + cbn [copia_fiel]. split; [reflexivity|]. split; [lia|].
      split; [|split].
      * rewrite Hx. rewrite <- !app_assoc. rewrite lookup_app_r by lia.
        now rewrite Nat.sub_diag.
      * apply copia_fiel_alvo; [exact Hve|].
        rewrite (app_assoc m [x] n2) in Fe |- *.
        eapply copia_fiel_base; [exact Hve | exact Fe].
      * eapply copia_fiel_base; [exact Hvd | exact Fd].
    + exists ([x] ++ n2 ++ n3). now rewrite <- !app_assoc.
    + cbn [entradas]. apply Forall_app. split; [|constructor].
      * apply List.Forall_forall. intros y Hy. specialize (Re y Hy).
        rewrite !length_app in *. simpl in *. lia.
      * simpl. rewrite !length_app. simpl. lia.
      * apply List.Forall_forall. intros y Hy. specialize (Rd y Hy).
        rewrite !length_app in *. simpl in *. lia.
    + cbn [entradas]. rewrite map_app. cbn [map fst].
      apply NoDup_app. split; [exact Ne|]. split.
      * intros y Hy Hy'. apply list_elem_of_In in Hy, Hy'.
        apply in_map_iff in Hy as [[y1 py] [<- Hy]].
        specialize (Re _ Hy). simpl in Re, Hy'.
        rewrite !length_app in Re. simpl in Re.
        destruct Hy' as [E|Hy']; [lia|].
        apply in_map_iff in Hy' as [[y2 py2] [E Hy']].
        specialize (Rd _ Hy'). simpl in *. subst y2.
        rewrite !length_app in Rd. simpl in Rd. lia.
      * apply NoDup_cons. split; [|exact Nd].
        intros Hy. apply list_elem_of_In in Hy.
        apply in_map_iff in Hy as [[y2 py2] [E Hy]].
        specialize (Rd _ Hy). simpl in *. subst y2.
        rewrite !length_app in Rd. simpl in Rd. lia.
Qed.

Lemma copia_fiel_chaves (m m' : memoria) (no : No) :
  forall no' : No,
    copia_fiel m m' no no' ->
    map (cpf_de m') (map fst (entradas no'))
    = map (cpf_de m) (map fst (entradas no))
    /\ tamanho no' = tamanho no.
Proof.
  induction no as [|r p e IHe d IHd]; intros [|r' p' e' d']; simpl;
    try tauto.
  intros (Hp & Hr & Hl & He & Hd).
  destruct (IHe e' He) as [Ee Te]. destruct (IHd d' Hd) as [Ed Td].
  split; [|lia].
  rewrite !map_app. cbn [map fst]. rewrite Ee, Ed.
  unfold cpf_de at 2 5. now rewrite Hl.
Qed.

(** X19: the deep copy of an index has the shape and the positions of
    the original; each of its nodes holds a new record object, distinct
    from every older object and from the objects of the other nodes,
    with the field values of the original node's record; the objects
    that existed before are untouched. *)
Theorem X19_deepcopy_fiel :
  forall (m : memoria) (a : ArvoreBinariaBusca.t),
    refs_validas m (ArvoreBinariaBusca.raiz a) ->
    let m' := fst (ArvoreBinariaBusca.deepcopy m a) in
    let a' := snd (ArvoreBinariaBusca.deepcopy m a) in
    copia_fiel m m' (ArvoreBinariaBusca.raiz a) (ArvoreBinariaBusca.raiz a')
    /\ (forall r : ref, (r < length m)%nat -> m' !! r = m !! r)
    /\ (forall r' : ref,
          In r' (ArvoreBinariaBusca.em_ordem a') ->
          (length m <= r' < length m')%nat)
    /\ NoDup (ArvoreBinariaBusca.em_ordem a')
    /\ chaves m' (ArvoreBinariaBusca.em_ordem a')
       = chaves m (ArvoreBinariaBusca.em_ordem a)
    /\ tamanho (ArvoreBinariaBusca.raiz a')
       = tamanho (ArvoreBinariaBusca.raiz a).
Proof.
  intros m [no] Hv m' a'. subst m' a'.
  unfold ArvoreBinariaBusca.deepcopy, ArvoreBinariaBusca.em_ordem, chaves.
  cbn [ArvoreBinariaBusca.raiz] in *.
  destruct (copiar_no_fiel no m Hv) as (Hf & [novos Hm] & Hr & Hn).
  destruct (ArvoreBinariaBusca.copiar_no m no) as [m' no'].
  cbn [fst snd ArvoreBinariaBusca.raiz] in *. subst m'.
  rewrite !_em_ordem_entradas. simpl.
  destruct (copia_fiel_chaves _ _ _ _ Hf) as [Hk Ht].
  split; [exact Hf|]. split; [|split; [|split; [|split]]]; auto.
  - intros r Hlt. now apply lookup_app_l.
  - intros r' Hin. apply in_map_iff in Hin as [x [<- Hx]].
    rewrite List.Forall_forall in Hr. now apply Hr.
Qed.

Lemma X19_deepcopy_fiel_witness :
  let s := executa_todas
             (insere "B" 0%nat ++ insere "A" 1%nat ++ insere "C" 2%nat)
             inicial in
  let m := mem s in
  let a := SistemaGerenciadorBD.indice (sgbd s) in
  let m' := fst (ArvoreBinariaBusca.deepcopy m a) in
  let a' := snd (ArvoreBinariaBusca.deepcopy m a) in
  copia_fiel m m' (ArvoreBinariaBusca.raiz a) (ArvoreBinariaBusca.raiz a')
  /\ (forall r : ref, (r < length m)%nat -> m' !! r = m !! r)
  /\ (forall r' : ref,
        In r' (ArvoreBinariaBusca.em_ordem a') ->
        (length m <= r' < length m')%nat)
  /\ NoDup (ArvoreBinariaBusca.em_ordem a')
  /\ chaves m' (ArvoreBinariaBusca.em_ordem a')
     = chaves m (ArvoreBinariaBusca.em_ordem a)
  /\ tamanho (ArvoreBinariaBusca.raiz a')
     = tamanho (ArvoreBinariaBusca.raiz a).
Proof.
  intros s m a.
  apply (X19_deepcopy_fiel m a).
  vm_compute. repeat constructor.
Defined.

Lemma chaves_zerar_em_fora (m : memoria) (r : ref) (l : list ref) :
  ~ In r l -> chaves (zerar_em m r) l = chaves m l.
Proof.
  intros H. unfold chaves. apply map_ext_in. intros j Hj.
  apply cpf_de_zerar_em_ne. intros ->. now apply H.
Qed.

(** X20: the copy is independent of the original.  After a deep copy,
    zeroing a record of the original index changes no key read through
    the copy, and zeroing a record of the copy changes no key read
    through the original. *)
Theorem X20_deepcopy_independente :
  forall (m : memoria) (a : ArvoreBinariaBusca.t) (r : ref),
    refs_validas m (ArvoreBinariaBusca.raiz a) ->
    let m' := fst (ArvoreBinariaBusca.deepcopy m a) in
    let a' := snd (ArvoreBinariaBusca.deepcopy m a) in
    (In r (ArvoreBinariaBusca.em_ordem a) ->
     chaves (zerar_em m' r) (ArvoreBinariaBusca.em_ordem a')
     = chaves m (ArvoreBinariaBusca.em_ordem a))
    /\ (In r (ArvoreBinariaBusca.em_ordem a') ->
        chaves (zerar_em m' r) (ArvoreBinariaBusca.em_ordem a)
        = chaves m (ArvoreBinariaBusca.em_ordem a)).
Proof.
  intros m [no] r Hv m' a'. subst m' a'.
  unfold ArvoreBinariaBusca.deepcopy, ArvoreBinariaBusca.em_ordem.
  cbn [ArvoreBinariaBusca.raiz] in *.
  destruct (copiar_no_fiel no m Hv) as (Hf & [novos Hm] & Hr & Hn).
  destruct (ArvoreBinariaBusca.copiar_no m no) as [m' no'].
  cbn [fst snd ArvoreBinariaBusca.raiz] in *. subst m'.
  rewrite !_em_ordem_entradas. simpl.
  destruct (copia_fiel_chaves _ _ _ _ Hf) as [Hk _].
  rewrite List.Forall_forall in Hr. unfold refs_validas in Hv.
  rewrite List.Forall_forall in Hv.
  split; intros Hin.
  - rewrite chaves_zerar_em_fora; [exact Hk|].
    intros Hin'. apply in_map_iff in Hin as [x [<- Hx]].
    apply in_map_iff in Hin' as [y [E Hy]].
    specialize (Hv x Hx). specialize (Hr y Hy). simpl in *. lia.
  - rewrite chaves_zerar_em_fora.
    + unfold chaves. apply map_ext_in. intros j Hj.
      apply in_map_iff in Hj as [x [<- Hx]]. specialize (Hv x Hx).
      unfold cpf_de. now rewrite lookup_app_l.
    + intros Hin'. apply in_map_iff in Hin as [y [<- Hy]].
      apply in_map_iff in Hin' as [x [E Hx]].
      specialize (Hv x Hx). specialize (Hr y Hy). simpl in *. lia.
Qed.

Lemma X20_deepcopy_independente_witness :
  let s := executa_todas
             (insere "B" 0%nat ++ insere "A" 1%nat ++ insere "C" 2%nat)
             inicial in
  let m := mem s in
  let a := SistemaGerenciadorBD.indice (sgbd s) in
  let m' := fst (ArvoreBinariaBusca.deepcopy m a) in
  let a' := snd (ArvoreBinariaBusca.deepcopy m a) in
  chaves (zerar_em m' 0%nat) (ArvoreBinariaBusca.em_ordem a')
  = chaves m (ArvoreBinariaBusca.em_ordem a)
  /\ chaves (zerar_em m' 4%nat) (ArvoreBinariaBusca.em_ordem a)
     = chaves m (ArvoreBinariaBusca.em_ordem a).
Proof.
  intros s m a m' a'. split.
  - apply (proj1 (X20_deepcopy_independente m a 0%nat
                    ltac:(vm_compute; repeat constructor))).
    vm_compute. auto.
  - apply (proj2 (X20_deepcopy_independente m a 4%nat
                    ltac:(vm_compute; repeat constructor))).
    vm_compute. auto.
Defined.

(** X21: in every state reached through the table manager, inserting a
    record whose key the index already finds changes the result of no
    lookup: the extra slot it leaves in the file is never reached. *)
Theorem X21_duplicata_nao_muda_buscas :
  forall (ops : list Operacao) (r : ref) (k : string),
    forallb pelo_gerenciador ops = true ->
    presente (mem (executa_todas ops inicial))
      (raiz_de (executa_todas ops inicial))
      (cpf_de (mem (executa_todas ops inicial)) r) ->
    let s := executa_todas ops inicial in
    SistemaGerenciadorBD.buscar_registro_por_cpf (mem s)
      (fst (SistemaGerenciadorBD.inserir_registro (mem s) (sgbd s) r)) k
    = SistemaGerenciadorBD.buscar_registro_por_cpf (mem s) (sgbd s) k.
Proof.
  intros ops r k Hops Hp s.
  pose proof (coerente_executa_todas ops inicial Hops coerente_inicial)
    as Hc.
  fold s in Hc, Hp. unfold raiz_de in Hp.
  unfold SistemaGerenciadorBD.inserir_registro, ArquivoRegistros.inserir.
  rewrite (inserir_presente _ _ r _ Hp). cbn [fst].
  unfold SistemaGerenciadorBD.buscar_registro_por_cpf,
    ArvoreBinariaBusca.buscar.
  cbn [SistemaGerenciadorBD.arquivo SistemaGerenciadorBD.indice].
  destruct (ArvoreBinariaBusca._buscar (mem s)
              (ArvoreBinariaBusca.raiz
                 (SistemaGerenciadorBD.indice (sgbd s))) k)
    as [|rn pn en dn] eqn:Hb; [reflexivity|].
  destruct (_buscar_chave _ _ _ _ _ _ _ Hb) as [_ Hin].
  rewrite (buscar_por_posicao_coerente s rn pn Hc Hin).
  destruct (coerente_ref_valida s rn pn Hc Hin) as [[H0 Hl] _].
  unfold registros_de in Hl. pose proof (lookup_lt_Some _ _ _ Hl) as Hlt.
  unfold ArquivoRegistros.buscar_por_posicao, ArquivoRegistros.len.
  cbn [ArquivoRegistros.registros]. rewrite length_app. cbn [length].
  rewrite (proj2 (Z.leb_le 0 pn)) by lia.
  rewrite (proj2 (Z.ltb_lt pn _)) by lia.
  cbn [andb]. now rewrite (lookup_app_l_Some _ _ _ _ Hl).
Qed.

Lemma X21_duplicata_nao_muda_buscas_witness :
  let s := executa_todas
             (insere "B" 0%nat ++ insere "A" 1%nat
              ++ [OpNovoRegistro "A" "Ana" uma_data false]) inicial in
  SistemaGerenciadorBD.buscar_registro_por_cpf (mem s)
    (fst (SistemaGerenciadorBD.inserir_registro (mem s) (sgbd s) 2%nat)) "A"
  = SistemaGerenciadorBD.buscar_registro_por_cpf (mem s) (sgbd s) "A".
Proof.
  apply (X21_duplicata_nao_muda_buscas
           (insere "B" 0%nat ++ insere "A" 1%nat
            ++ [OpNovoRegistro "A" "Ana" uma_data false]) 2%nat "A").
  - reflexivity.
  - unfold presente. vm_compute. discriminate.
Defined.
